(** * BlessBean price-list ingestion: a shallow embedding of [src/App.tsx]

    The development models the text normalizer ([sanitizeText],
    [normalizeCountry]), the inline currency parse and the workbook scan
    of [handleExcelUpload], and proves the properties the specification
    states about them.

    JavaScript data is modelled as the program has it:
    - a string is its sequence of UTF-16 code units ([jsstring]), so that
      [.length], the regular expressions (none carries the [u] flag) and
      [split]/[join] see what the engine sees;
    - a number is an IEEE-754 binary64 value ([spec_float], 53 bits of
      precision, [emax = 1024]);
    - a cell of a decoded sheet is a [JsValue]; reading past the end of a
      row gives [VUndefined], as array indexing does;
    - the country table is an object literal, and [COUNTRY_ISO_MAP[s]]
      finds its own properties and those it inherits from
      [Object.prototype]; a country is therefore a [Country]: a string, or
      the built-in object of an inherited property name. *)

From Stdlib Require Import ZArith NArith String Ascii List Lia Bool Sorted.
From Stdlib Require Import Floats.SpecFloat.
From stdpp Require Import base list gmap sorting.

Local Open Scope N_scope.

(** ** Strings as UTF-16 code units *)

Abbreviation jsstring := (list N).

(** String literals of this file are written in UTF-8, like the source
    file; [js] decodes one into its code units (code points above U+FFFF
    become a surrogate pair). *)
Fixpoint utf16_of_utf8 (bs : list N) : jsstring :=
  match bs with
  | [] => []
  | b0 :: r0 =>
    if b0 <? 0x80 then b0 :: utf16_of_utf8 r0
    else match r0 with
    | [] => [0xFFFD]
    | b1 :: r1 =>
      if b0 <? 0xE0 then (b0 mod 0x20 * 0x40 + b1 mod 0x40) :: utf16_of_utf8 r1
      else match r1 with
      | [] => [0xFFFD]
      | b2 :: r2 =>
        if b0 <? 0xF0
        then (b0 mod 0x10 * 0x1000 + b1 mod 0x40 * 0x40 + b2 mod 0x40)
               :: utf16_of_utf8 r2
        else match r2 with
        | [] => [0xFFFD]
        | b3 :: r3 =>
          let cp := b0 mod 0x08 * 0x40000 + b1 mod 0x40 * 0x1000
                    + b2 mod 0x40 * 0x40 + b3 mod 0x40 in
          (0xD800 + (cp - 0x10000) / 0x400)
            :: (0xDC00 + (cp - 0x10000) mod 0x400) :: utf16_of_utf8 r3
        end
      end
    end
  end.

Definition js (s : string) : jsstring :=
  utf16_of_utf8 (map N_of_ascii (list_ascii_of_string s)).

Definition SPACE : N := 0x20.

(** [\s] of a regular expression, and the set [String.prototype.trim]
    strips: WhiteSpace and LineTerminator of ECMA-262. *)
Definition isWhiteSpace (c : N) : bool :=
  (c =? 0x09) || (c =? 0x0A) || (c =? 0x0B) || (c =? 0x0C) || (c =? 0x0D)
  || (c =? 0x20) || (c =? 0xA0) || (c =? 0x1680)
  || ((0x2000 <=? c) && (c <=? 0x200A))
  || (c =? 0x2028) || (c =? 0x2029) || (c =? 0x202F) || (c =? 0x205F)
  || (c =? 0x3000) || (c =? 0xFEFF).

(** [s.replace(/[...]/g, " ")] for a one-character class: every matching
    code unit becomes a space. *)
Definition replaceEachBySpace (cls : N -> bool) (s : jsstring) : jsstring :=
  map (fun c => if cls c then SPACE else c) s.

(** [s.replace(/[...]/g, "")] for a one-character class. *)
Definition removeEach (cls : N -> bool) (s : jsstring) : jsstring :=
  List.filter (fun c => negb (cls c)) s.

(** [s.replace(/\s+/g, " ")]: every maximal run of white space becomes one
    space.  [inRun] tells that the previous code unit was white space. *)
Fixpoint collapseFrom (inRun : bool) (s : jsstring) : jsstring :=
  match s with
  | [] => []
  | c :: r =>
    if isWhiteSpace c
    then (if inRun then collapseFrom true r else SPACE :: collapseFrom true r)
    else c :: collapseFrom false r
  end.

Definition collapseWhiteSpace (s : jsstring) : jsstring := collapseFrom false s.

Fixpoint trimStart (s : jsstring) : jsstring :=
  match s with
  | [] => []
  | c :: r => if isWhiteSpace c then trimStart r else s
  end.

Fixpoint trimEnd (s : jsstring) : jsstring :=
  match s with
  | [] => []
  | c :: r =>
    match trimEnd r with
    | [] => if isWhiteSpace c then [] else [c]
    | kept => c :: kept
    end
  end.

Definition trim (s : jsstring) : jsstring := trimEnd (trimStart s).

(** [s.split(/\s+/)]: the pieces between the maximal runs of white space;
    a run at either end leaves an empty piece there, and the empty string
    splits into one empty piece. *)
Fixpoint splitFrom (inRun : bool) (piece : jsstring) (s : jsstring)
  : list jsstring :=
  match s with
  | [] => [rev piece]
  | c :: r =>
    if isWhiteSpace c
    then (if inRun then splitFrom true [] r
          else rev piece :: splitFrom true [] r)
    else splitFrom false (c :: piece) r
  end.

Definition splitWhiteSpace (s : jsstring) : list jsstring := splitFrom false [] s.

(** A string is truthy when it is not empty. *)
Definition nonEmpty (s : jsstring) : bool :=
  match s with [] => false | _ => true end.

(** [haystack] contains [needle]: what [/needle/.test(haystack)] decides
    for a literal pattern. *)
Fixpoint isPrefix (needle s : jsstring) : bool :=
  match needle, s with
  | [], _ => true
  | _ :: _, [] => false
  | a :: n', b :: s' => (a =? b) && isPrefix n' s'
  end.

Fixpoint contains (needle s : jsstring) : bool :=
  isPrefix needle s ||
  match s with
  | [] => false
  | _ :: r => contains needle r
  end.

(** ** Numbers: binary64 *)

Definition number := spec_float.

Definition prec64 : Z := 53.
Definition emax64 : Z := 1024.

Definition NaN : number := S754_nan.
Definition posZero : number := S754_zero false.

(** The Number value of an integer (round to nearest, ties to even). *)
Definition numberOfZ (z : Z) : number := binary_normalize prec64 emax64 z 0 false.

(** [Number.isFinite(x)] *)
Definition Number_isFinite (x : number) : bool :=
  match x with
  | S754_zero _ | S754_finite _ _ _ => true
  | S754_infinity _ | S754_nan => false
  end.

(** [x > 0] *)
Definition gtZero (x : number) : bool := SFltb posZero x.

(** The Number value of the decimal [m * 10^e10], [m >= 0], with the sign
    [neg]: exact big-integer arithmetic, then one rounding to nearest-even.
    [nd] bounds the number of decimal digits of [m]; the two guards keep
    the powers of ten small and only cut off values beyond the overflow
    threshold or below half the least subnormal. *)
Definition decimalToNumber (neg : bool) (m : Z) (nd : Z) (e10 : Z) : number :=
  match m with
  | Zpos p =>
    if (310 <? e10)%Z then S754_infinity neg
    else if (nd + e10 <? -330)%Z then S754_zero neg
    else if (0 <=? e10)%Z then binary_round prec64 emax64 neg (p * Z.to_pos (10 ^ e10)) 0
    else
      let d := (10 ^ (- e10))%Z in
      let s := Z.max 0 (64 + Z.log2 d + 1 - Z.log2 m) in
      let '(q, r) := Z.div_eucl (Z.shiftl m s) d in
      binary_round_aux prec64 emax64 neg q (- s) (new_location d r)
  | _ => S754_zero neg
  end.

Definition isDigit (c : N) : bool := (0x30 <=? c) && (c <=? 0x39).

(** The value of a code unit as a digit of the radix, if it is one. *)
Definition digitOf (radix : N) (c : N) : option N :=
  let v := if (0x30 <=? c) && (c <=? 0x39) then Some (c - 0x30)
           else if (0x61 <=? c) && (c <=? 0x66) then Some (c - 0x61 + 10)
           else if (0x41 <=? c) && (c <=? 0x46) then Some (c - 0x41 + 10)
           else None in
  match v with
  | Some d => if d <? radix then Some d else None
  | None => None
  end.

(** The longest prefix of decimal digits (as digit values) and the rest. *)
Fixpoint takeDigits (s : jsstring) : list N * jsstring :=
  match s with
  | c :: r =>
    if isDigit c then let '(ds, rest) := takeDigits r in ((c - 0x30) :: ds, rest)
    else ([], s)
  | [] => ([], [])
  end.

Definition digitsValue (radix : Z) (ds : list N) : Z :=
  fold_left (fun acc d => (acc * radix + Z.of_N d)%Z) ds 0%Z.

(** All code units are digits of the radix: their values. *)
Fixpoint allDigits (radix : N) (s : jsstring) : option (list N) :=
  match s with
  | [] => Some []
  | c :: r =>
    match digitOf radix c, allDigits radix r with
    | Some d, Some ds => Some (d :: ds)
    | _, _ => None
    end
  end.

(** ExponentPart_opt at the end of a literal: [Some e], or [None] when what
    is left is not an exponent part. *)
Definition parseExponent (s : jsstring) : option Z :=
  match s with
  | [] => Some 0%Z
  | c :: r =>
    if (c =? 0x65) || (c =? 0x45) then
      let '(neg, r') :=
        match r with
        | 0x2B :: r' => (false, r')
        | 0x2D :: r' => (true, r')
        | _ => (false, r)
        end in
      match takeDigits r' with
      | ((_ :: _) as ds, []) =>
        let e := digitsValue 10 ds in Some (if neg then (- e)%Z else e)
      | _ => None
      end
    else None
  end.

(** StrUnsignedDecimalLiteral *)
Definition parseUnsignedDecimal (neg : bool) (s : jsstring) : number :=
  if decide (s = js "Infinity") then S754_infinity neg
  else
    let '(ip, r1) := takeDigits s in
    let '(fp, r2, ok) :=
      match r1 with
      | 0x2E :: r =>
        let '(fp, r2) := takeDigits r in
        (fp, r2, nonEmpty ip || nonEmpty fp)
      | _ => ([], r1, nonEmpty ip)
      end in
    if ok then
      match parseExponent r2 with
      | Some e =>
        let ds := ip ++ fp in
        decimalToNumber neg (digitsValue 10 ds) (Z.of_nat (length ds))
                        (e - Z.of_nat (length fp))
      | None => NaN
      end
    else NaN.

(** NonDecimalIntegerLiteral: [0x], [0o], [0b] and their capitals. *)
Definition parseNonDecimal (s : jsstring) : option number :=
  match s with
  | 0x30 :: p :: ((_ :: _) as ds) =>
    let radix :=
      if (p =? 0x78) || (p =? 0x58) then Some 16
      else if (p =? 0x6F) || (p =? 0x4F) then Some 8
      else if (p =? 0x62) || (p =? 0x42) then Some 2
      else None in
    match radix with
    | Some rx =>
      Some match allDigits rx ds with
           | Some vs => numberOfZ (digitsValue (Z.of_N rx) vs)
           | None => NaN
           end
    | None => None
    end
  | _ => None
  end.

(** [Number(s)] for a string [s]: StringToNumber of ECMA-262. *)
Definition StringToNumber (s : jsstring) : number :=
  let t := trim s in
  match t with
  | [] => posZero
  | c :: r =>
    match parseNonDecimal t with
    | Some x => x
    | None =>
      if c =? 0x2B then parseUnsignedDecimal false r
      else if c =? 0x2D then parseUnsignedDecimal true r
      else parseUnsignedDecimal false t
    end
  end.

(** *** Number::toString

    The shortest decimal that reads back as the same Number value
    (ECMA-262, Number::toString with radix 10). *)

(** [10^k * num / den] as a fraction, for any integer [k]. *)
Definition scale10 (num den k : Z) : Z * Z :=
  if (0 <=? k)%Z then (num * 10 ^ k, den)%Z else (num, den * 10 ^ (- k))%Z.

(** [num / den < 10^n] *)
Definition belowPow10 (num den n : Z) : bool :=
  let '(a, b) := scale10 num den (- n) in (a <? b)%Z.

(** The [n] with [10^(n-1) <= num/den < 10^n], searched around a guess. *)
Fixpoint decimalExponent (fuel : nat) (num den n : Z) : Z :=
  match fuel with
  | O => n
  | S fuel' =>
    if negb (belowPow10 num den n) then decimalExponent fuel' num den (n + 1)
    else if belowPow10 num den (n - 1) then decimalExponent fuel' num den (n - 1)
    else n
  end.

(** The [k] decimal digits of [s], most significant first. *)
Fixpoint digitString (k : nat) (s : Z) : jsstring :=
  match k with
  | O => []
  | S k' => digitString k' (s / 10) ++ [0x30 + Z.to_N (s mod 10)]
  end.

Fixpoint dropZeros (s : jsstring) : jsstring :=
  match s with
  | 0x30 :: ((_ :: _) as r) => dropZeros r
  | _ => s
  end.

(** The digits of a natural number, without leading zeros. *)
Definition decimalString (z : Z) : jsstring :=
  dropZeros (digitString (S (Z.to_nat (Z.log2 z))) z).

(** For a positive value [num/den] and a digit count [k]: the [k]-digit
    integers [s] next to [num/den * 10^(k-n)], nearest first (ties: the
    even one first), each with its exponent [n]. *)
Definition candidates (num den n : Z) (k : nat) : list (Z * Z) :=
  let '(a, b) := scale10 num den (Z.of_nat k - n) in
  let lo := (a / b)%Z in
  let r := (a mod b)%Z in
  let hi := (lo + 1)%Z in
  let cLo := (lo, n) in
  let cHi := if (hi =? 10 ^ Z.of_nat k)%Z then (10 ^ (Z.of_nat k - 1), n + 1)%Z
             else (hi, n) in
  match (2 * r ?= b)%Z with
  | Lt => [cLo; cHi]
  | Gt => [cHi; cLo]
  | Eq => if Z.even lo then [cLo; cHi] else [cHi; cLo]
  end.

(** The least [k] (from [k] upwards) with a candidate that reads back as
    [x], and that candidate. *)
Fixpoint shortestFrom (fuel : nat) (x : number) (num den n : Z) (k : nat)
  : nat * (Z * Z) :=
  let cs := candidates num den n k in
  let good := List.filter (fun c : Z * Z =>
                SFeqb (decimalToNumber false (fst c) (Z.of_nat k)
                                       (snd c - Z.of_nat k)) x) cs in
  match good, fuel with
  | c :: _, _ => (k, c)
  | [], S fuel' => shortestFrom fuel' x num den n (S k)
  | [], O => (k, hd (0, 0)%Z cs)
  end.

(** The text of the digits [ds] (there are [k] of them) scaled so that the
    value is [0.ds * 10^n]. *)
Definition formatDecimal (ds : jsstring) (n : Z) : jsstring :=
  let k := Z.of_nat (length ds) in
  if ((k <=? n) && (n <=? 21))%Z then ds ++ repeat 0x30 (Z.to_nat (n - k))
  else if ((0 <? n) && (n <=? 21))%Z
  then firstn (Z.to_nat n) ds ++ [0x2E] ++ skipn (Z.to_nat n) ds
  else if ((-6 <? n) && (n <=? 0))%Z
  then [0x30; 0x2E] ++ repeat 0x30 (Z.to_nat (- n)) ++ ds
  else
    let e := (n - 1)%Z in
    let expo := [0x65] ++ [if (e <? 0)%Z then 0x2D else 0x2B]
                ++ decimalString (Z.abs e) in
    match ds with
    | [d] => [d] ++ expo
    | d :: rest => [d] ++ [0x2E] ++ rest ++ expo
    | [] => expo
    end.

Definition Number_toString (x : number) : jsstring :=
  match x with
  | S754_nan => js "NaN"
  | S754_zero _ => js "0"
  | S754_infinity s => (if s then js "-" else []) ++ js "Infinity"
  | S754_finite s m e =>
    let '(num, den) :=
      if (0 <=? e)%Z then (Zpos m * 2 ^ e, 1)%Z else (Zpos m, 2 ^ (- e))%Z in
    let guess := ((Z.log2 num - Z.log2 den) * 30103 / 100000 + 1)%Z in
    let n := decimalExponent 4 num den guess in
    let '(k, (digits, n')) :=
      shortestFrom 16 (S754_finite false m e) num den n 1 in
    (if s then js "-" else []) ++ formatDecimal (digitString k digits) n'
  end.

(** ** Unicode normalization

    [String.prototype.normalize] is a built-in of the engine; the program
    is modelled over any implementation of it that maps the empty string
    to itself. *)
Class UnicodeNFC := {
  normalizeNFC : jsstring -> jsstring;
  normalizeNFC_empty : normalizeNFC [] = []
}.

(** Canonical composition of conjoining Hangul jamo (The Unicode Standard,
    section 3.12): a leading consonant and a vowel compose into an LV
    syllable, an LV syllable and a trailing consonant into an LVT syllable.
    On text made of ASCII, Hangul syllables and Hangul jamo, which is what
    the price lists and the tables of this program hold, this is
    [normalize("NFC")]; the compositions of other scripts need the Unicode
    character database and are left to other instances. *)
Definition composeJamo (last c : N) : option N :=
  if (0x1100 <=? last) && (last <? 0x1100 + 19)
     && (0x1161 <=? c) && (c <? 0x1161 + 21)
  then Some (0xAC00 + ((last - 0x1100) * 21 + (c - 0x1161)) * 28)
  else if (0xAC00 <=? last) && (last <? 0xAC00 + 11172)
          && ((last - 0xAC00) mod 28 =? 0)
          && (0x11A7 <? c) && (c <? 0x11A7 + 28)
  then Some (last + (c - 0x11A7))
  else None.

Fixpoint composeAfter (last : N) (s : jsstring) : jsstring :=
  match s with
  | [] => [last]
  | c :: r =>
    match composeJamo last c with
    | Some syllable => composeAfter syllable r
    | None => last :: composeAfter c r
    end
  end.

Definition hangulNFC (s : jsstring) : jsstring :=
  match s with
  | [] => []
  | c :: r => composeAfter c r
  end.

#[export] Instance hangulEngine : UnicodeNFC :=
  {| normalizeNFC := hangulNFC; normalizeNFC_empty := eq_refl |}.

(** Text made of ASCII and precomposed Hangul syllables only; it holds
    nothing that composes or reorders, so normal form C leaves it as it
    is. *)
Definition plainHangulText (s : jsstring) : bool :=
  forallb (fun c => (c <? 0x80) || ((0xAC00 <=? c) && (c <=? 0xD7A3))) s.

Definition keepsPlainText (engine : UnicodeNFC) : Prop :=
  forall s, plainHangulText s = true -> normalizeNFC s = s.

(** ** Values *)

Inductive JsValue :=
  | VUndefined
  | VNull
  | VBool (b : bool)
  | VNumber (x : number)
  | VString (s : jsstring).

(** [String(v)], and [v.toString()] where [v] is neither null nor
    undefined. *)
Definition ToString (v : JsValue) : jsstring :=
  match v with
  | VUndefined => js "undefined"
  | VNull => js "null"
  | VBool true => js "true"
  | VBool false => js "false"
  | VNumber x => Number_toString x
  | VString s => s
  end.

(** Truthiness: what [!v] and [if (v)] test. *)
Definition truthy (v : JsValue) : bool :=
  match v with
  | VUndefined | VNull => false
  | VBool b => b
  | VNumber x =>
    match x with
    | S754_zero _ | S754_nan => false
    | _ => true
    end
  | VString s => nonEmpty s
  end.

(** [v ?? d] *)
Definition orElse (v d : JsValue) : JsValue :=
  match v with
  | VUndefined | VNull => d
  | _ => v
  end.

(** [row[i]]: [undefined] outside the row. *)
Definition cellAt (row : list JsValue) (i : Z) : JsValue :=
  if (i <? 0)%Z then VUndefined else nth (Z.to_nat i) row VUndefined.

(** [row.findIndex(p)]: the first position whose cell satisfies [p], or
    [-1]. *)
Fixpoint findIndexFrom (p : JsValue -> bool) (i : Z) (row : list JsValue) : Z :=
  match row with
  | [] => (-1)%Z
  | c :: r => if p c then i else findIndexFrom p (i + 1)%Z r
  end.

Definition findIndex (p : JsValue -> bool) (row : list JsValue) : Z :=
  findIndexFrom p 0%Z row.

(** ** Types and constants of the program *)

(** The program types a country as [string].  What it holds there is the
    result of [normalizeCountry], which reads [COUNTRY_ISO_MAP[s]]: a
    string, or, when [s] names a property that the object literal inherits,
    the built-in function or object that [Object.prototype] holds under
    that name.  [Inherited p] stands for the value of
    [Object.prototype[p]]; the built-ins of two different names are two
    different objects, so [===] and the membership test of a [Set] agree
    with the equality of this type. *)
Inductive Country :=
  | Text (s : jsstring)
  | Inherited (property : jsstring).

#[export] Instance Country_eq_dec : EqDecision Country.
Proof. solve_decision. Defined.

(** Truthiness of such a value: what [if (maybe)] and [!currentCountry]
    test.  Functions and objects are truthy. *)
Definition truthyCountry (c : Country) : bool :=
  match c with
  | Text s => nonEmpty s
  | Inherited _ => true
  end.

Record PriceItem := mkPriceItem {
  country : Country;
  name : jsstring;
  price : number;
  priceGroup : jsstring
}.

Definition MAX_ROWS_SAFE : Z := 20000.

Definition ALLOWED_SHEETS : gset jsstring :=
  {[ js "(1)"; js "(2)"; js "(3)"; js "(4)" ]}.

Definition COUNTRY_TABLE : list (jsstring * jsstring) :=
  [ (js "브라질", js "BR"); (js "콜롬비아", js "CO"); (js "에티오피아", js "ET");
    (js "과테말라", js "GT"); (js "인도네시아", js "ID"); (js "인도", js "IN");
    (js "케냐", js "KE"); (js "엘살바도르", js "SV"); (js "온두라스", js "HN");
    (js "자메이카", js "JM"); (js "탄자니아", js "TN");
    (js "디카페인", js "[디카페인]"); (js "베트남", js "VN");
    (js "코스타리카", js "CR"); (js "니카라과", js "NI"); (js "멕시코", js "MX");
    (js "페루", js "PE"); (js "파푸아뉴기니", js "PG"); (js "예멘", js "YE");
    (js "르완다", js "RW"); (js "우간다", js "UG"); (js "파나마", js "PA");
    (js "하와이", js "US") ].

(** The own properties of the object literal. *)
Definition COUNTRY_ISO_MAP : gmap jsstring jsstring := list_to_map COUNTRY_TABLE.

(** The properties of [Object.prototype], the prototype of every object
    literal (ECMA-262, 20.1.3): eleven functions, and the accessor
    [__proto__], which returns the prototype itself.  All of their values
    are objects. *)
Definition Object_prototype : list jsstring :=
  [ js "constructor"; js "hasOwnProperty"; js "isPrototypeOf";
    js "propertyIsEnumerable"; js "toLocaleString"; js "toString";
    js "valueOf"; js "__proto__"; js "__defineGetter__";
    js "__defineSetter__"; js "__lookupGetter__"; js "__lookupSetter__" ].

(** [COUNTRY_ISO_MAP[s]]: the own property named [s], or else the property
    of that name that the object inherits; [None] is [undefined]. *)
Definition getCountry (s : jsstring) : option Country :=
  match COUNTRY_ISO_MAP !! s with
  | Some code => Some (Text code)
  | None =>
    if bool_decide (s ∈ Object_prototype) then Some (Inherited s) else None
  end.

(** A string, or the built-in object of a name that [Object.prototype]
    does hold. *)
Definition knownCountry (c : Country) : Prop :=
  match c with
  | Text _ => True
  | Inherited property => property ∈ Object_prototype
  end.

(** ** Utility *)

Definition isNbsp (c : N) : bool := c =? 0xA0.
Definition isZeroWidth (c : N) : bool :=
  ((0x200B <=? c) && (c <=? 0x200D)) || (c =? 0xFEFF).
Definition isCrTab (c : N) : bool := (c =? 0x0D) || (c =? 0x09).

Section Normalizer.
Context {engine : UnicodeNFC}.

Definition sanitizeText (s : JsValue) : jsstring :=
  trim
    (collapseWhiteSpace
      (replaceEachBySpace isCrTab
        (removeEach isZeroWidth
          (replaceEachBySpace isNbsp
            (normalizeNFC
              (ToString (orElse s (VString [])))))))).

Definition normalizeCountry (raw : jsstring) : Country :=
  let s := sanitizeText (VString raw) in
  let tokens := List.filter nonEmpty (splitWhiteSpace s) in
  let s :=
    if (1 <? length tokens)%nat && forallb (fun t => (length t =? 1)%nat) tokens
    then concat tokens else s in
  match getCountry s with
  | Some found => if truthyCountry found then found else Text s
  | None => Text s
  end.

End Normalizer.

(** ** Excel upload: the scan of a decoded workbook *)

Definition Row := list JsValue.

(** [wb.SheetNames] and [wb.Sheets]; a sheet is held as the rows that
    [XLSX.utils.sheet_to_json(ws, {header: 1, defval: ""})] decodes it into. *)
Record WorkBook := mkWorkBook {
  SheetNames : list jsstring;
  Sheets : gmap jsstring (list Row)
}.

Definition sheet_to_json (wb : WorkBook) (sheet : jsstring) : list Row :=
  default [] (Sheets wb !! sheet).

Inductive ScanError :=
  | EmptyWorkbook
  | SheetTooLarge (rowCount : Z)
  | NoValidItems.

Inductive Outcome (A : Type) :=
  | Returns (a : A)
  | Throws (e : ScanError).
Arguments Returns {A} a.
Arguments Throws {A} e.

(** [typeof c === "string" && /(품명|제품명)/.test(c)] *)
Definition isNameLabel (c : JsValue) : bool :=
  match c with
  | VString t => contains (js "품명") t || contains (js "제품명") t
  | _ => false
  end.

(** [typeof c === "string" && /(단가|가격)/.test(c)] *)
Definition isPriceLabel (c : JsValue) : bool :=
  match c with
  | VString t => contains (js "단가") t || contains (js "가격") t
  | _ => false
  end.

Definition countryIdx : Z := 1.

(** [/[\s,원₩]/] *)
Definition isPriceNoise (c : N) : bool :=
  isWhiteSpace c || (c =? 0x2C) || (c =? 0xC6D0) || (c =? 0x20A9).

(** [Number(String(priceRaw).replace(/[\s,원₩]/g, ""))] *)
Definition parsePrice (priceRaw : JsValue) : number :=
  StringToNumber (removeEach isPriceNoise (ToString priceRaw)).

Section Scanner.
Context {engine : UnicodeNFC}.

(** One turn of the inner loop, on the row [item]: the value of
    [currentCountry] after it, and the item it pushes, if any. *)
Definition dataRow (sheet : jsstring) (nameIdx priceIdx : Z)
    (currentCountry : Country) (item : Row) : Country * option PriceItem :=
  let rawCountry := cellAt item countryIdx in
  let name := sanitizeText (VString (ToString (orElse (cellAt item nameIdx) (VString [])))) in
  let priceRaw := cellAt item priceIdx in
  let maybe :=
    match rawCountry with
    | VString t => normalizeCountry t
    | _ => Text []
    end in
  let currentCountry := if truthyCountry maybe then maybe else currentCountry in
  if negb (nonEmpty name) || negb (truthy priceRaw)
     || negb (truthyCountry currentCountry)
  then (currentCountry, None)
  else
    let priceNum := parsePrice priceRaw in
    if Number_isFinite priceNum && gtZero priceNum
    then (currentCountry,
          Some {| country := currentCountry; name := name;
                  price := priceNum; priceGroup := sheet |})
    else (currentCountry, None).

(** The inner loop [for (let j = i + 1; j < rows.length; j++)] over the
    rows below a header: the items pushed, in order. *)
Fixpoint walkRows (sheet : jsstring) (nameIdx priceIdx : Z)
    (currentCountry : Country) (below : list Row) : list PriceItem :=
  match below with
  | [] => []
  | item :: rest =>
    let '(currentCountry', out) :=
      dataRow sheet nameIdx priceIdx currentCountry item in
    match out with
    | Some it => it :: walkRows sheet nameIdx priceIdx currentCountry' rest
    | None => walkRows sheet nameIdx priceIdx currentCountry' rest
    end
  end.

(** The header test of the outer loop on [row]: the two detected columns
    when the row is a complete header. *)
Definition detectHeader (row : Row) : option (Z * Z) :=
  if existsb isNameLabel row then
    let nameIdx := findIndex isNameLabel row in
    let priceIdx := findIndex isPriceLabel row in
    if (nameIdx =? -1)%Z || (priceIdx =? -1)%Z then None
    else Some (nameIdx, priceIdx)
  else None.

(** The outer loop [for (let i = 0; i < rows.length; i++)]: at a complete
    header the inner loop runs over all the rows below it, starting from
    [let currentCountry = ""]. *)
Fixpoint scanRows (sheet : jsstring) (rows : list Row) : list PriceItem :=
  match rows with
  | [] => []
  | row :: below =>
    match detectHeader row with
    | Some (nameIdx, priceIdx) =>
      walkRows sheet nameIdx priceIdx (Text []) below ++ scanRows sheet below
    | None => scanRows sheet below
    end
  end.

(** [for (const sheet of wb.SheetNames)], with the items collected so far. *)
Fixpoint scanSheets (wb : WorkBook) (names : list jsstring)
    (collected : list PriceItem) : Outcome (list PriceItem) :=
  match names with
  | [] => Returns collected
  | sheet :: rest =>
    if negb (bool_decide (sheet ∈ ALLOWED_SHEETS)) then scanSheets wb rest collected
    else
      let rows := sheet_to_json wb sheet in
      if (MAX_ROWS_SAFE <? Z.of_nat (length rows))%Z
      then Throws (SheetTooLarge (Z.of_nat (length rows)))
      else scanSheets wb rest (collected ++ scanRows sheet rows)
  end.

(** Lines 139-189: the scan proper. *)
Definition scan (wb : WorkBook) : Outcome (list PriceItem) :=
  match scanSheets wb (SheetNames wb) [] with
  | Throws e => Throws e
  | Returns collected =>
    if (length collected =? 0)%nat then Throws NoValidItems
    else Returns collected
  end.

(** Lines 135-189 of [handleExcelUpload]: what the [try] block computes from
    the decoded workbook. *)
Definition handleExcelUpload (wb : WorkBook) : Outcome (list PriceItem) :=
  if (length (SheetNames wb) =? 0)%nat then Throws EmptyWorkbook
  else scan wb.

End Scanner.

(** ** The scan, with every push recorded

    The same loops, remembering for each [collected.push] the position of
    the sheet in [wb.SheetNames], the index [i] of the header row whose
    walk pushes, and the index [j] of the data row.  The size guard plays
    no part here: these are the rows the walks accept in the permitted
    sheets. *)

Record Push := mkPush {
  atSheet : nat;
  atHeader : nat;
  atRow : nat;
  pushed : PriceItem
}.

Section Pushes.
Context {engine : UnicodeNFC}.

Fixpoint walkRowsAt (sheet : jsstring) (nameIdx priceIdx : Z) (k i j : nat)
    (currentCountry : Country) (below : list Row) : list Push :=
  match below with
  | [] => []
  | item :: rest =>
    let '(currentCountry', out) :=
      dataRow sheet nameIdx priceIdx currentCountry item in
    match out with
    | Some it =>
      mkPush k i j it
        :: walkRowsAt sheet nameIdx priceIdx k i (S j) currentCountry' rest
    | None => walkRowsAt sheet nameIdx priceIdx k i (S j) currentCountry' rest
    end
  end.

Fixpoint scanRowsAt (sheet : jsstring) (k i : nat) (rows : list Row)
  : list Push :=
  match rows with
  | [] => []
  | row :: below =>
    match detectHeader row with
    | Some (nameIdx, priceIdx) =>
      walkRowsAt sheet nameIdx priceIdx k i (S i) (Text []) below
        ++ scanRowsAt sheet k (S i) below
    | None => scanRowsAt sheet k (S i) below
    end
  end.

Fixpoint pushesFrom (wb : WorkBook) (k : nat) (names : list jsstring)
  : list Push :=
  match names with
  | [] => []
  | sheet :: rest =>
    if bool_decide (sheet ∈ ALLOWED_SHEETS)
    then scanRowsAt sheet k 0 (sheet_to_json wb sheet) ++ pushesFrom wb (S k) rest
    else pushesFrom wb (S k) rest
  end.

Definition pushes (wb : WorkBook) : list Push := pushesFrom wb 0 (SheetNames wb).

(** The normalized country cell of a data row: [maybe] of the inner loop. *)
Definition countryCell (item : Row) : Country :=
  match cellAt item countryIdx with
  | VString t => normalizeCountry t
  | _ => Text []
  end.

(** [if (maybe) currentCountry = maybe] *)
Definition nextCountry (currentCountry : Country) (item : Row) : Country :=
  if truthyCountry (countryCell item) then countryCell item else currentCountry.

(** [currentCountry] after the inner loop has gone through [items]. *)
Definition countryAfter (currentCountry : Country) (items : list Row) : Country :=
  fold_left nextCountry items currentCountry.

(** [currentCountry] of the walk begun at the header row [i], when the
    inner loop tests it for the row [j] (that is, after the country cell of
    row [j] itself has been looked at). *)
Definition walkCountry (rows : list Row) (i j : nat) : Country :=
  countryAfter (Text []) (firstn (j - i) (skipn (Datatypes.S i) rows)).

(** A push is accepted when its sheet is permitted, its header row is a
    complete header, and the loop body on its data row, entered with the
    country the walk has reached just above it, yields its item. *)
Definition accepted (wb : WorkBook) (p : Push) : Prop :=
  exists sheet header nameIdx priceIdx item,
    SheetNames wb !! atSheet p = Some sheet /\
    sheet ∈ ALLOWED_SHEETS /\
    sheet_to_json wb sheet !! atHeader p = Some header /\
    detectHeader header = Some (nameIdx, priceIdx) /\
    (atHeader p < atRow p)%nat /\
    sheet_to_json wb sheet !! atRow p = Some item /\
    snd (dataRow sheet nameIdx priceIdx
           (walkCountry (sheet_to_json wb sheet) (atHeader p) (atRow p - 1)) item)
      = Some (pushed p).

(** A valid row, as the specification words it: the row yields an item
    only if the sanitized name is non-empty, the raw price cell is truthy,
    a current country is established, and the parsed price is a finite
    positive number; its item holds that country, the sanitized name, the
    parsed price and the sheet name.  [currentCountry] is the country in
    force at the row, its own country cell included. *)
Definition validRow (sheet : jsstring) (nameIdx priceIdx : Z)
    (currentCountry : Country) (item : Row) (it : PriceItem) : Prop :=
  let name :=
    sanitizeText (VString (ToString (orElse (cellAt item nameIdx) (VString [])))) in
  let priceNum := parsePrice (cellAt item priceIdx) in
  nonEmpty name = true /\
  truthy (cellAt item priceIdx) = true /\
  truthyCountry currentCountry = true /\
  Number_isFinite priceNum = true /\
  gtZero priceNum = true /\
  it = {| country := currentCountry; name := name; price := priceNum;
          priceGroup := sheet |}.

(** A valid row of the workbook, with its item: a row below a complete
    header row of a permitted sheet that is valid for the columns of that
    header and for the country that the rows between the header and the
    row, the row included, have established. *)
Definition validPush (wb : WorkBook) (p : Push) : Prop :=
  exists sheet header nameIdx priceIdx item,
    SheetNames wb !! atSheet p = Some sheet /\
    sheet ∈ ALLOWED_SHEETS /\
    sheet_to_json wb sheet !! atHeader p = Some header /\
    detectHeader header = Some (nameIdx, priceIdx) /\
    (atHeader p < atRow p)%nat /\
    sheet_to_json wb sheet !! atRow p = Some item /\
    validRow sheet nameIdx priceIdx
      (walkCountry (sheet_to_json wb sheet) (atHeader p) (atRow p)) item
      (pushed p).

End Pushes.

(** Sheet order, then row order. *)
Definition rowOrder (p q : Push) : Prop :=
  (atSheet p < atSheet q)%nat \/
  (atSheet p = atSheet q /\ (atRow p < atRow q)%nat).

(** Sheet order, then header order, then row order. *)
Definition walkOrder (p q : Push) : Prop :=
  (atSheet p < atSheet q)%nat \/
  (atSheet p = atSheet q /\
   ((atHeader p < atHeader q)%nat \/
    (atHeader p = atHeader q /\ (atRow p < atRow q)%nat))).

(** No permitted sheet of the workbook is over the row ceiling. *)
Definition withinCeiling (wb : WorkBook) : Prop :=
  forall sheet, In sheet (SheetNames wb) -> sheet ∈ ALLOWED_SHEETS ->
    (Z.of_nat (length (sheet_to_json wb sheet)) <= MAX_ROWS_SAFE)%Z.

(** A row that the outer loop takes as a complete header. *)
Definition isHeader (row : Row) : bool :=
  match detectHeader row with
  | Some _ => true
  | None => false
  end.

(** Every permitted sheet of the workbook has at most one header row. *)
Definition singleHeader (wb : WorkBook) : Prop :=
  forall sheet, In sheet (SheetNames wb) -> sheet ∈ ALLOWED_SHEETS ->
    (length (List.filter isHeader (sheet_to_json wb sheet)) <= 1)%nat.

(** The first permitted sheet over the ceiling, in sheet order. *)
Definition firstTooLarge (wb : WorkBook) : option jsstring :=
  List.find (fun sheet =>
               bool_decide (sheet ∈ ALLOWED_SHEETS)
               && (MAX_ROWS_SAFE <? Z.of_nat (length (sheet_to_json wb sheet)))%Z)
            (SheetNames wb).

(** The letter-spaced variant of a name: one space between every two code
    units. *)
Fixpoint letterSpaced (s : jsstring) : jsstring :=
  match s with
  | [] => []
  | [c] => [c]
  | c :: r => c :: SPACE :: letterSpaced r
  end.

(** The cleaned text is made of two or more one-character tokens. *)
Definition isLetterSpaced (s : jsstring) : bool :=
  let tokens := List.filter nonEmpty (splitWhiteSpace s) in
  (1 <? length tokens)%nat && forallb (fun t => (length t =? 1)%nat) tokens.

Definition rejoined (s : jsstring) : jsstring :=
  concat (List.filter nonEmpty (splitWhiteSpace s)).

(** ** Shapes of cleaned text *)

(** A string in which white space only occurs as single spaces; [inRun]
    tells that the code unit before it is white space. *)
Fixpoint singleSpaced (inRun : bool) (s : jsstring) : bool :=
  match s with
  | [] => true
  | c :: r =>
    if isWhiteSpace c then negb inRun && (c =? SPACE) && singleSpaced true r
    else singleSpaced false r
  end.

Definition headNotSpace (s : jsstring) : Prop :=
  forall c, head s = Some c -> isWhiteSpace c = false.

Definition lastNotSpace (s : jsstring) : Prop :=
  forall c, last s = Some c -> isWhiteSpace c = false.


(** What [sanitizeText] leaves no trace of: non-breaking space, zero-width
    characters, tab, carriage return. *)
Definition cleanUnit (c : N) : Prop :=
  c <> 0xA0 /\ isZeroWidth c = false /\ c <> 0x09 /\ c <> 0x0D.

Definition spaceIfWhite (c : N) : Prop := isWhiteSpace c = true -> c = SPACE.

(** ** Statements of the specification, as it words them *)

Section Statements.
Context {engine : UnicodeNFC}.

(** "The scan fails with NoValidItems exactly when no valid row is found;
    otherwise it returns exactly the valid rows, one item each, in sheet
    order, then row order."  [found] lists the valid rows of the workbook,
    each once, in that order. *)
Definition scanReturnsValidRows (wb : WorkBook) : Prop :=
  exists found : list Push,
    (forall p, p ∈ found <-> validPush wb p) /\
    StronglySorted rowOrder found /\
    (handleExcelUpload wb = Throws NoValidItems <-> found = []) /\
    (found <> [] -> handleExcelUpload wb = Returns (map pushed found)).

(** "The current country is never reset to empty at a new header row: a
    data row under a later header, with no country cell of its own section
    above it, still receives the last country of the earlier section."
    Here [i1 < i2] are two header rows, [c] is the country that the walk of
    the first has established just above the second, and row [j] lies
    under the second with no country cell in between. *)
Definition countryCarriesOver (rows : list Row) : Prop :=
  forall (i1 i2 j : nat) (header1 header2 : Row) (c : Country),
    (i1 < i2 < j)%nat -> (j < length rows)%nat ->
    rows !! i1 = Some header1 -> detectHeader header1 <> None ->
    rows !! i2 = Some header2 -> detectHeader header2 <> None ->
    walkCountry rows i1 (i2 - 1) = c -> truthyCountry c = true ->
    (forall r item, (i2 <= r <= j)%nat -> rows !! r = Some item ->
                    countryCell item = Text []) ->
    walkCountry rows i2 j = c.

End Statements.

(** ** Sample sheets *)

Definition txt (s : string) : JsValue := VString (js s).

Definition headerRow : Row := [txt ""; txt "나라"; txt "품명"; txt "단가"].
Definition bareHeader : Row := [txt ""; txt ""; txt "품명"; txt "단가"].
Definition swappedHeader : Row := [txt ""; txt ""; txt "단가"; txt "품명"].
Definition santos : Row := [txt ""; txt "브라질"; txt "산토스"; txt "12,000원"].

(** A header, a row that names Brazil, and two rows that leave the country
    cell empty; the last price is a numeric cell. *)
Definition brazilBlock : WorkBook :=
  {| SheetNames := [js "(1)"];
     Sheets := {[ js "(1)" :=
       [ headerRow; santos;
         [txt ""; txt ""; txt "세하도"; txt "₩13000"];
         [txt ""; txt ""; txt "모지아나"; VNumber (numberOfZ 14000)] ] ]} |}.

Definition priceItem (c n : string) (p : Z) (g : string) : PriceItem :=
  {| country := Text (js c); name := js n; price := numberOfZ p;
     priceGroup := js g |}.

(** A sheet resumed under a second header, with no country cell below it. *)
Definition resumedRows : list Row :=
  [ bareHeader; santos; bareHeader; [txt ""; txt ""; txt "세하도"; txt "13000"] ].

(** The same, the second header listing the price before the name. *)
Definition resumedSwapped : list Row :=
  [ bareHeader; santos; swappedHeader; [txt ""; txt ""; txt "13000"; txt "세하도"] ].

(** One data row under two header rows. *)
Definition twoHeaders : WorkBook :=
  {| SheetNames := [js "(1)"];
     Sheets := {[ js "(1)" := [ headerRow; headerRow; santos ] ]} |}.

(** A well-formed sheet next to a sheet of 20001 rows. *)
Definition oneSheetTooLarge : WorkBook :=
  {| SheetNames := [js "(1)"; js "(2)"];
     Sheets := {[ js "(1)" := [ headerRow; santos ];
                  js "(2)" := repeat [] (Z.to_nat 20001) ]} |}.


(** The workbook with the rows of one sheet replaced. *)
Definition withSheet (wb : WorkBook) (sheet : jsstring) (rows : list Row)
  : WorkBook :=
  {| SheetNames := SheetNames wb; Sheets := <[sheet := rows]> (Sheets wb) |}.

(** The cleaned name of an item: neither starts nor ends with white
    space, holds white space only as single spaces, and holds no
    non-breaking space, zero-width character, tab or carriage return. *)
Definition cleanName (s : jsstring) : Prop :=
  Forall cleanUnit s /\ headNotSpace s /\ lastNotSpace s /\
  singleSpaced false s = true.

(** What the loop body has validated of a pushed item.  The country is a
    truthy value: a non-empty string, or the built-in object of an
    inherited property name. *)
Definition validItem (it : PriceItem) : Prop :=
  match country it with
  | Text s => nonEmpty s = true
  | Inherited property => property ∈ Object_prototype
  end /\
  nonEmpty (name it) = true /\
  cleanName (name it) /\
  Number_isFinite (price it) = true /\
  gtZero (price it) = true /\
  priceGroup it ∈ ALLOWED_SHEETS.

(** A country cell that names an inherited property. *)
Definition constructorBlock : WorkBook :=
  {| SheetNames := [js "(1)"];
     Sheets := {[ js "(1)" :=
       [ headerRow;
         [txt ""; txt "constructor"; txt "산토스"; txt "12,000원"] ] ]} |}.

(** A workbook without sheets. *)
Definition noSheets : WorkBook := {| SheetNames := []; Sheets := ∅ |}.

(** ** The upload gate and the file label

    The part of [handleExcelUpload] around the scan: the checks on the
    chosen file (lines 108-128) and the label derived from its name (lines
    191-192). *)

(** What the handler reads of a [File]. *)
Record File := mkFile {
  file_name : jsstring;
  file_type : jsstring;
  file_size : Z
}.

(** The [allowed] array of MIME types. *)
Definition allowedTypes : list jsstring :=
  [ js "application/vnd.openxmlformats-officedocument.spreadsheetml.sheet";
    js "application/vnd.ms-excel";
    js "application/octet-stream" ].

(** [allowed.includes(t)] *)
Definition includes (l : list jsstring) (t : jsstring) : bool :=
  existsb (fun a => bool_decide (a = t)) l.

(** A match of [/\.xlsx?$/] that starts at the head of [s]: [".xls"], an
    optional ["x"], and then the end of the input. *)
Definition xlsEndsHere (s : jsstring) : bool :=
  match s with
  | c0 :: c1 :: c2 :: c3 :: rest =>
    (c0 =? 0x2E) && (c1 =? 0x78) && (c2 =? 0x6C) && (c3 =? 0x73)
    && match rest with
       | [] => true
       | [c4] => c4 =? 0x78
       | _ => false
       end
  | _ => false
  end.

(** [/\.xlsx?$/.test(s)]: a match starting at some position. *)
Fixpoint testXlsExtension (s : jsstring) : bool :=
  xlsEndsHere s ||
  match s with
  | [] => false
  | _ :: r => testXlsExtension r
  end.

Definition MAX_FILE_BYTES : Z := 10 * 1024 * 1024.

(** A match of [/(20\d{2})(\d{2})/] that starts at the head of [s]: the two
    groups. *)
Definition yearMonthHere (s : jsstring) : option (jsstring * jsstring) :=
  match s with
  | c0 :: c1 :: y3 :: y4 :: m1 :: m2 :: _ =>
    if (c0 =? 0x32) && (c1 =? 0x30)
       && isDigit y3 && isDigit y4 && isDigit m1 && isDigit m2
    then Some ([c0; c1; y3; y4], [m1; m2])
    else None
  | _ => None
  end.

(** [s.match(/(20\d{2})(\d{2})/)]: the groups of the leftmost match. *)
Fixpoint matchYearMonth (s : jsstring) : option (jsstring * jsstring) :=
  match yearMonthHere s with
  | Some groups => Some groups
  | None =>
    match s with
    | [] => None
    | _ :: r => matchYearMonth r
    end
  end.

(** [match ? `${match[1]}년 ${match[2]}월 단가표` : file.name] *)
Definition fileDateLabel (fileName : jsstring) : jsstring :=
  match matchYearMonth fileName with
  | Some (year, month) => year ++ js "년 " ++ month ++ js "월 단가표"
  | None => fileName
  end.

(** What one upload comes to: nothing without a file, one of the two
    toasts of the gate, a thrown error (of the scan, or of [XLSX.read]), or
    the items and the label that are stored. *)
Inductive UploadResult :=
  | NoFile
  | InvalidFileType
  | FileTooLarge
  | DecodeFailure
  | ScanFailure (e : ScanError)
  | Loaded (itemsAll : list PriceItem) (fileDate : jsstring).

(** The whole handler, lines 107-198.  [decoded] is what [XLSX.read] makes
    of the bytes of the file: a workbook, or nothing when it throws. *)
Definition uploadFile {engine : UnicodeNFC} (file : option File)
    (decoded : option WorkBook) : UploadResult :=
  match file with
  | None => NoFile
  | Some f =>
    if negb (includes allowedTypes (file_type f))
       && negb (testXlsExtension (file_name f))
    then InvalidFileType
    else if (MAX_FILE_BYTES <? file_size f)%Z then FileTooLarge
    else
      match decoded with
      | None => DecodeFailure
      | Some wb =>
        match handleExcelUpload wb with
        | Throws e => ScanFailure e
        | Returns collected => Loaded collected (fileDateLabel (file_name f))
        end
      end
  end.

(** ** Memoized collections (lines 209-217) *)

(** [Array.from(new Set(l))]: the set is filled in the order of [l], and
    lists its elements in the order they were first added. *)
Definition ArrayFromSet (l : list Country) : list Country :=
  fold_left (fun seen x => if bool_decide (x ∈ seen) then seen else seen ++ [x])
            l [].

Definition countries (itemsAll : list PriceItem) (group : jsstring)
  : list Country :=
  ArrayFromSet
    (map country
       (List.filter (fun i => bool_decide (priceGroup i = group)) itemsAll)).

(** [selectedCountry] is a country of the list above, or [null]. *)
Definition items (itemsAll : list PriceItem) (selectedCountry : option Country)
    (group : jsstring) : list PriceItem :=
  List.filter
    (fun i => bool_decide (Some (country i) = selectedCountry)
              && bool_decide (priceGroup i = group))
    itemsAll.

(** ** Cart helpers (lines 220-226) *)

(** [Math.max(a, b)] *)
Definition Math_max (a b : number) : number :=
  match SFcompare a b with
  | None => NaN
  | Some Lt => b
  | Some Gt => a
  | Some Eq =>
    match a with
    | S754_zero true => b
    | _ => a
    end
  end.

(** [a + b] and [-a] on numbers. *)
Definition numberAdd (a b : number) : number := SFadd prec64 emax64 a b.
Definition numberNeg (a : number) : number := SFopp a.

(** [a < 0] *)
Definition ltZero (a : number) : bool := SFltb a posZero.

Module Cart.

Record CartItem := mkCartItem {
  name : jsstring;
  country : Country;
  price : number;
  quantity : number
}.

(** [x.name === n && x.country === c] *)
Definition isEntry (n : jsstring) (c : Country) (x : CartItem) : bool :=
  bool_decide (name x = n) && bool_decide (country x = c).

Definition addToCart (n : jsstring) (p : number) (c : Country)
    (prev : list CartItem) : list CartItem :=
  match List.find (isEntry n c) prev with
  | Some _ => prev
  | None => prev ++ [ {| name := n; price := p; country := c;
                         quantity := posZero |} ]
  end.

Definition updateQty (n : jsstring) (c : Country) (v : number)
    (prev : list CartItem)
  : list CartItem :=
  map (fun x =>
         if isEntry n c x
         then {| name := name x; country := country x; price := price x;
                 quantity := Math_max (numberAdd (quantity x) v) posZero |}
         else x)
      prev.

Definition removeFromCart (n : jsstring) (c : Country) (prev : list CartItem)
  : list CartItem :=
  List.filter (fun x => negb (isEntry n c x)) prev.

(** The key under which an entry is looked up. *)
Definition key (x : CartItem) : jsstring * Country := (name x, country x).

End Cart.

(** The text of a list of decimal digits. *)
Definition digitText (ds : list N) : jsstring := map (fun d => 0x30 + d) ds.

(** The set being filled, from what it holds already. *)
Definition fillSet (seen l : list Country) : list Country :=
  fold_left (fun seen x => if bool_decide (x ∈ seen) then seen else seen ++ [x])
            l seen.

(** [y] is none of [seen]. *)
Definition unseen (seen : list Country) (y : Country) : bool :=
  negb (bool_decide (y ∈ seen)).
(** ** Facts about the string primitives *)

Arguments isWhiteSpace : simpl never.
Arguments isZeroWidth : simpl never.

Lemma collapse_singleSpaced b s : singleSpaced b (collapseFrom b s) = true.
Proof.
  revert b. induction s as [|c r IH]; intros b; simpl; [reflexivity|].
  destruct (isWhiteSpace c) eqn:Hc.
  - destruct b; [apply IH|].
    simpl. change (isWhiteSpace SPACE) with true. simpl. apply IH.
  - simpl. rewrite Hc. apply IH.
Qed.

Lemma singleSpaced_collapse b s :
  singleSpaced b s = true -> collapseFrom b s = s.
Proof.
  revert b. induction s as [|c r IH]; intros b H; simpl in *; [reflexivity|].
  destruct (isWhiteSpace c).
  - apply andb_prop in H as [H Hr]. apply andb_prop in H as [Hb Hc].
    destruct b; [discriminate|].
    apply N.eqb_eq in Hc. subst c. f_equal. auto.
  - f_equal. auto.
Qed.

Lemma singleSpaced_weaken b s :
  singleSpaced b s = true -> singleSpaced false s = true.
Proof.
  destruct s as [|c r]; simpl; [auto|].
  destruct (isWhiteSpace c); [|auto].
  intros H. apply andb_prop in H as [H Hr]. apply andb_prop in H as [_ Hc].
  rewrite Hc, Hr. reflexivity.
Qed.

Lemma trimStart_singleSpaced b s :
  singleSpaced b s = true -> singleSpaced false (trimStart s) = true.
Proof.
  revert b. induction s as [|c r IH]; intros b H; simpl in *; [reflexivity|].
  destruct (isWhiteSpace c) eqn:Hc.
  - apply andb_prop in H as [_ Hr]. eauto.
  - simpl. rewrite Hc. exact H.
Qed.

Lemma trimEnd_singleSpaced b s :
  singleSpaced b s = true -> singleSpaced b (trimEnd s) = true.
Proof.
  revert b. induction s as [|c r IH]; intros b H; simpl in *; [reflexivity|].
  destruct (isWhiteSpace c) eqn:Hc.
  - apply andb_prop in H as [H Hr]. specialize (IH _ Hr).
    destruct (trimEnd r) as [|d k]; [reflexivity|].
    cbn [singleSpaced]. rewrite Hc, H. exact IH.
  - specialize (IH _ H).
    destruct (trimEnd r) as [|d k]; cbn [singleSpaced]; rewrite Hc; auto.
Qed.

Lemma trimStart_head s : headNotSpace (trimStart s).
Proof.
  induction s as [|c r IH]; simpl; [intros ? [=]|].
  destruct (isWhiteSpace c) eqn:Hc; [exact IH|].
  intros d [= <-]. exact Hc.
Qed.

Lemma trimStart_fixed s : headNotSpace s -> trimStart s = s.
Proof.
  destruct s as [|c r]; simpl; [reflexivity|].
  intros H. rewrite (H c eq_refl). reflexivity.
Qed.

Lemma trimEnd_head s : headNotSpace s -> headNotSpace (trimEnd s).
Proof.
  destruct s as [|c r]; simpl; [auto|].
  intros H. specialize (H c eq_refl).
  rewrite H. destruct (trimEnd r); intros d [= <-]; exact H.
Qed.

Lemma trimEnd_last s : lastNotSpace (trimEnd s).
Proof.
  induction s as [|c r IH]; simpl; [intros ? [=]|].
  destruct (trimEnd r) as [|d k] eqn:Hk.
  - destruct (isWhiteSpace c) eqn:Hc; [intros ? [=]|].
    intros e [= <-]. exact Hc.
  - intros e He. apply (IH e). exact He.
Qed.

Lemma trimEnd_fixed s : trimEnd (trimEnd s) = trimEnd s.
Proof.
  induction s as [|c r IH]; simpl; [reflexivity|].
  destruct (trimEnd r) as [|d k] eqn:Hk.
  - destruct (isWhiteSpace c) eqn:Hc; simpl; [reflexivity|].
    rewrite Hc. reflexivity.
  - cbn [trimEnd]. fold (trimEnd (d :: k)).
    change (match trimEnd (d :: k) with
            | [] => if isWhiteSpace c then [] else [c]
            | n :: l => c :: n :: l end = c :: d :: k).
    rewrite IH. reflexivity.
Qed.

Lemma trim_fixed s : trim (trim s) = trim s.
Proof.
  unfold trim.
  rewrite (trimStart_fixed (trimEnd (trimStart s))).
  - apply trimEnd_fixed.
  - apply trimEnd_head, trimStart_head.
Qed.

Lemma trimStart_Forall (P : N -> Prop) s : Forall P s -> Forall P (trimStart s).
Proof.
  induction 1 as [|c r Hc Hr IH]; simpl; [constructor|].
  destruct (isWhiteSpace c); [exact IH|]. constructor; assumption.
Qed.

Lemma trimEnd_Forall (P : N -> Prop) s : Forall P s -> Forall P (trimEnd s).
Proof.
  induction 1 as [|c r Hc Hr IH]; simpl; [constructor|].
  destruct (trimEnd r).
  - destruct (isWhiteSpace c); constructor; [assumption|constructor].
  - constructor; assumption.
Qed.

Lemma trim_Forall (P : N -> Prop) s : Forall P s -> Forall P (trim s).
Proof. intros H. apply trimEnd_Forall, trimStart_Forall, H. Qed.

Lemma collapse_spaceIfWhite b s : Forall spaceIfWhite (collapseFrom b s).
Proof.
  revert b. induction s as [|c r IH]; intros b; simpl; [constructor|].
  destruct (isWhiteSpace c) eqn:Hc.
  - destruct b; [apply IH|]. constructor; [intros _; reflexivity | apply IH].
  - constructor; [|apply IH]. intros H. congruence.
Qed.

Lemma collapse_Forall (P : N -> Prop) b s :
  P SPACE -> Forall P s -> Forall P (collapseFrom b s).
Proof.
  intros HP H. revert b. induction H as [|c r Hc Hr IH]; intros b; simpl.
  - constructor.
  - destruct (isWhiteSpace c); [destruct b|]; auto.
Qed.

Lemma replaceEachBySpace_Forall (P : N -> Prop) cls s :
  P SPACE -> Forall P s -> Forall P (replaceEachBySpace cls s).
Proof.
  intros HP H. unfold replaceEachBySpace. rewrite List.Forall_map.
  eapply List.Forall_impl; [|exact H]. intros c Hc. simpl. destruct (cls c); auto.
Qed.

Lemma removeEach_Forall cls s : Forall (fun c => cls c = false) (removeEach cls s).
Proof.
  unfold removeEach. induction s as [|c r IH]; simpl; [constructor|].
  destruct (cls c) eqn:Hc; simpl; [exact IH|]. constructor; assumption.
Qed.

Lemma replaceEachBySpace_fixed cls s :
  Forall (fun c => cls c = false) s -> replaceEachBySpace cls s = s.
Proof.
  unfold replaceEachBySpace. induction 1 as [|c r Hc Hr IH]; simpl; [reflexivity|].
  rewrite Hc, IH. reflexivity.
Qed.

Lemma removeEach_fixed cls s :
  Forall (fun c => cls c = false) s -> removeEach cls s = s.
Proof.
  unfold removeEach. induction 1 as [|c r Hc Hr IH]; simpl; [reflexivity|].
  rewrite Hc. simpl. rewrite IH. reflexivity.
Qed.

Lemma spaceIfWhite_not_class cls c :
  (forall d, cls d = true -> isWhiteSpace d = true /\ d <> SPACE) ->
  spaceIfWhite c -> cls c = false.
Proof.
  intros Hcls Hc. destruct (cls c) eqn:E; [|reflexivity].
  destruct (Hcls c E) as [Hw Hne]. elim Hne. exact (Hc Hw).
Qed.

Lemma isNbsp_white d : isNbsp d = true -> isWhiteSpace d = true /\ d <> SPACE.
Proof.
  unfold isNbsp. intros H. apply N.eqb_eq in H. subst d.
  split; [reflexivity | discriminate].
Qed.

Lemma isCrTab_white d : isCrTab d = true -> isWhiteSpace d = true /\ d <> SPACE.
Proof.
  unfold isCrTab. intros H. apply orb_prop in H.
  destruct H as [H|H]; apply N.eqb_eq in H; subst d;
    (split; [reflexivity | discriminate]).
Qed.

Section NormalizerFacts.
Context {engine : UnicodeNFC}.

Lemma sanitizeText_noZeroWidth x :
  Forall (fun c => isZeroWidth c = false) (sanitizeText x).
Proof.
  unfold sanitizeText. apply trim_Forall. apply collapse_Forall; [reflexivity|].
  apply replaceEachBySpace_Forall; [reflexivity|]. apply removeEach_Forall.
Qed.

Lemma sanitizeText_spaceIfWhite x : Forall spaceIfWhite (sanitizeText x).
Proof. unfold sanitizeText. apply trim_Forall, collapse_spaceIfWhite. Qed.

Lemma sanitizeText_singleSpaced x : singleSpaced false (sanitizeText x) = true.
Proof.
  unfold sanitizeText, trim, collapseWhiteSpace.
  apply trimEnd_singleSpaced. eapply trimStart_singleSpaced.
  apply collapse_singleSpaced.
Qed.

Lemma sanitizeText_empty : sanitizeText (VString []) = [].
Proof. unfold sanitizeText. simpl. rewrite normalizeNFC_empty. reflexivity. Qed.

Lemma sanitizeText_stable x :
  normalizeNFC (sanitizeText x) = sanitizeText x ->
  sanitizeText (VString (sanitizeText x)) = sanitizeText x.
Proof.
  intros Hnfc. set (y := sanitizeText x) in *.
  assert (Hw : Forall spaceIfWhite y) by apply sanitizeText_spaceIfWhite.
  assert (Hz : Forall (fun c => isZeroWidth c = false) y)
    by apply sanitizeText_noZeroWidth.
  unfold sanitizeText at 1. cbn [orElse ToString]. rewrite Hnfc.
  rewrite (replaceEachBySpace_fixed isNbsp y).
  2:{ eapply List.Forall_impl; [|exact Hw].
      intros c. apply spaceIfWhite_not_class, isNbsp_white. }
  rewrite (removeEach_fixed isZeroWidth y Hz).
  rewrite (replaceEachBySpace_fixed isCrTab y).
  2:{ eapply List.Forall_impl; [|exact Hw].
      intros c. apply spaceIfWhite_not_class, isCrTab_white. }
  unfold collapseWhiteSpace.
  rewrite (singleSpaced_collapse false y (sanitizeText_singleSpaced x)).
  unfold y, sanitizeText. apply trim_fixed.
Qed.

(** C5 (amended): [sanitizeText] is total and reads a missing input as the
    empty string; its result holds no non-breaking space, no zero-width
    character, no tab and no carriage return, and neither starts nor ends
    with white space; and cleaning a cleaned text again changes nothing
    whenever the cleaned text is in normal form C. *)
Theorem sanitizeText_clean (x : JsValue) :
  sanitizeText VUndefined = [] /\
  sanitizeText VNull = [] /\
  Forall cleanUnit (sanitizeText x) /\
  headNotSpace (sanitizeText x) /\
  lastNotSpace (sanitizeText x) /\
  (normalizeNFC (sanitizeText x) = sanitizeText x ->
   sanitizeText (VString (sanitizeText x)) = sanitizeText x).
Proof.
  split; [exact sanitizeText_empty|].
  split; [exact sanitizeText_empty|].
  split.
  { pose proof (sanitizeText_spaceIfWhite x) as Hw.
    pose proof (sanitizeText_noZeroWidth x) as Hz.
    rewrite List.Forall_forall in *. intros c Hc.
    specialize (Hw c Hc). specialize (Hz c Hc).
    unfold cleanUnit, spaceIfWhite in *.
    repeat split; try assumption;
      intros ->; specialize (Hw eq_refl); discriminate. }
  split; [unfold sanitizeText, trim; apply trimEnd_head, trimStart_head|].
  split; [unfold sanitizeText, trim; apply trimEnd_last|].
  apply sanitizeText_stable.
Qed.

End NormalizerFacts.

(** C5, witness: the cleaned text of a padded country name is in normal
    form C, and cleaning it again changes nothing. *)
Lemma sanitizeText_clean_witness :
  normalizeNFC (sanitizeText (VString (js " 케냐  AA ")))
    = sanitizeText (VString (js " 케냐  AA ")) /\
  sanitizeText (VString (sanitizeText (VString (js " 케냐  AA "))))
    = sanitizeText (VString (js " 케냐  AA ")).
Proof.
  split; [vm_compute; reflexivity|].
  apply (sanitizeText_clean (VString (js " 케냐  AA "))).
  vm_compute; reflexivity.
Defined.

(** C5, counterexample: a zero-width space between a leading consonant and
    a vowel.  The first pass removes it after the normalization has run, so
    the second pass composes the two jamo into a syllable: the function is
    not idempotent at this input. *)
Lemma sanitizeText_not_idempotent :
  sanitizeText (VString [0x1107; 0x200B; 0x1173]) = [0x1107; 0x1173] /\
  sanitizeText (VString (sanitizeText (VString [0x1107; 0x200B; 0x1173])))
    = js "브" /\
  sanitizeText (VString (sanitizeText (VString [0x1107; 0x200B; 0x1173])))
    <> sanitizeText (VString [0x1107; 0x200B; 0x1173]).
Proof. vm_compute. repeat split; discriminate. Qed.

(** ** The country table *)

(** C7 (amended): when the cleaned text is not letter-spaced, is not a
    key of the table and is not the name of a property that objects
    inherit, [normalizeCountry] returns the cleaned text unchanged; when it
    is letter-spaced, the tokens are rejoined first, and the rejoined text
    is returned when that is neither a key of the table nor such a name. *)
Theorem normalizeCountry_passthrough {engine : UnicodeNFC} (s : jsstring) :
  (isLetterSpaced (sanitizeText (VString s)) = false ->
   COUNTRY_ISO_MAP !! sanitizeText (VString s) = None ->
   sanitizeText (VString s) ∉ Object_prototype ->
   normalizeCountry s = Text (sanitizeText (VString s))) /\
  (isLetterSpaced (sanitizeText (VString s)) = true ->
   COUNTRY_ISO_MAP !! rejoined (sanitizeText (VString s)) = None ->
   rejoined (sanitizeText (VString s)) ∉ Object_prototype ->
   normalizeCountry s = Text (rejoined (sanitizeText (VString s)))).
Proof.
  unfold normalizeCountry, isLetterSpaced, rejoined, getCountry. cbv zeta.
  split; intros Hls Hmap Hown; rewrite Hls; cbv beta iota; rewrite Hmap;
    rewrite bool_decide_eq_false_2 by exact Hown; reflexivity.
Qed.

(** C7, witness: a name outside the table passes through cleaned, and a
    letter-spaced one passes through rejoined. *)
Lemma normalizeCountry_passthrough_witness :
  normalizeCountry (js "  Geisha	Lot ") = Text (js "Geisha Lot") /\
  normalizeCountry (js "a b") = Text (js "ab").
Proof.
  assert (Hnot : forall s : jsstring,
            bool_decide (s ∈ Object_prototype) = false -> s ∉ Object_prototype).
  { intros s H. apply bool_decide_eq_false in H. exact H. }
  split.
  - rewrite (proj1 (normalizeCountry_passthrough (js "  Geisha	Lot ")));
      [ vm_compute; reflexivity | vm_compute; reflexivity
      | vm_compute; reflexivity | apply Hnot; vm_compute; reflexivity ].
  - rewrite (proj2 (normalizeCountry_passthrough (js "a b")));
      [ vm_compute; reflexivity | vm_compute; reflexivity
      | vm_compute; reflexivity | apply Hnot; vm_compute; reflexivity ].
Defined.

(** C7, counterexample: three strings that are not keys of the table and
    are not passed through as [sanitizeText] leaves them: a letter-spaced
    text is rejoined, a padded country name is cleaned and then found, and
    for the name of an inherited property the lookup finds the built-in
    object of that name. *)
Lemma normalizeCountry_not_passthrough :
  (COUNTRY_ISO_MAP !! js "a b" = None /\
   normalizeCountry (js "a b") = Text (js "ab") /\
   sanitizeText (VString (js "a b")) = js "a b" /\
   normalizeCountry (js "a b") <> Text (sanitizeText (VString (js "a b")))) /\
  (COUNTRY_ISO_MAP !! js " 브라질" = None /\
   normalizeCountry (js " 브라질") = Text (js "BR") /\
   sanitizeText (VString (js " 브라질")) = js "브라질" /\
   normalizeCountry (js " 브라질")
     <> Text (sanitizeText (VString (js " 브라질")))) /\
  (COUNTRY_ISO_MAP !! js "constructor" = None /\
   normalizeCountry (js "constructor") = Inherited (js "constructor") /\
   sanitizeText (VString (js "constructor")) = js "constructor" /\
   normalizeCountry (js "constructor")
     <> Text (sanitizeText (VString (js "constructor")))).
Proof. vm_compute. repeat split; discriminate. Qed.

Lemma composeJamo_plain last c :
  (c <? 0x80) || ((0xAC00 <=? c) && (c <=? 0xD7A3)) = true ->
  composeJamo last c = None.
Proof.
  intros H. unfold composeJamo.
  assert (Hv : (0x1161 <=? c) && (c <? 0x1161 + 21) = false).
  { apply andb_false_iff. rewrite N.leb_gt, N.ltb_ge.
    apply orb_prop in H as [H | H].
    - apply N.ltb_lt in H. left. lia.
    - apply andb_prop in H as [H _]. apply N.leb_le in H. right. lia. }
  assert (Ht : (0x11A7 <? c) && (c <? 0x11A7 + 28) = false).
  { apply andb_false_iff. rewrite !N.ltb_ge.
    apply orb_prop in H as [H | H].
    - apply N.ltb_lt in H. left. lia.
    - apply andb_prop in H as [H _]. apply N.leb_le in H. right. lia. }
  rewrite <- !andb_assoc, Hv, Ht, !andb_false_r. reflexivity.
Qed.

Lemma composeAfter_plain last s :
  plainHangulText s = true -> composeAfter last s = last :: s.
Proof.
  revert last. induction s as [|c r IH]; intros last H; [reflexivity|].
  cbn [plainHangulText forallb] in H. apply andb_prop in H as [Hc Hr].
  cbn [composeAfter]. rewrite (composeJamo_plain last c Hc), (IH c Hr).
  reflexivity.
Qed.

Lemma hangulEngine_keepsPlainText : keepsPlainText hangulEngine.
Proof.
  intros [|c r] H; [reflexivity|].
  cbn [plainHangulText forallb] in H. apply andb_prop in H as [_ Hr].
  apply (composeAfter_plain c r Hr).
Qed.

Lemma COUNTRY_TABLE_normalized (engine : UnicodeNFC) :
  keepsPlainText engine ->
  Forall (fun kv : jsstring * jsstring =>
            normalizeCountry (fst kv) = Text (snd kv) /\
            normalizeCountry (letterSpaced (fst kv)) = Text (snd kv))
         COUNTRY_TABLE.
Proof.
  intros Hkeep.
  assert (Hentry : forall raw code,
            plainHangulText raw = true ->
            @normalizeCountry hangulEngine raw = code ->
            normalizeCountry raw = code).
  { intros raw code Hplain <-.
    assert (Hs : @sanitizeText engine (VString raw)
                 = @sanitizeText hangulEngine (VString raw)).
    { unfold sanitizeText.
      change (ToString (orElse (VString raw) (VString []))) with raw.
      rewrite (Hkeep raw Hplain), (hangulEngine_keepsPlainText raw Hplain).
      reflexivity. }
    unfold normalizeCountry. rewrite Hs. reflexivity. }
  repeat (apply List.Forall_cons;
          [split; apply Hentry; vm_compute; reflexivity|]).
  apply List.Forall_nil.
Qed.

(** C6: for every entry of the country table, [normalizeCountry] maps the
    Korean name to its code, and maps the letter-spaced variant of the name
    (one space between every two characters) to the same code.  The
    normalizer of the engine only enters through the fact that normal
    form C leaves text of precomposed Hangul syllables and ASCII unchanged. *)
Theorem normalizeCountry_table (engine : UnicodeNFC)
    (koreanName isoCode : jsstring) :
  keepsPlainText engine ->
  COUNTRY_ISO_MAP !! koreanName = Some isoCode ->
  normalizeCountry koreanName = Text isoCode /\
  normalizeCountry (letterSpaced koreanName) = Text isoCode /\
  normalizeCountry (letterSpaced koreanName) = normalizeCountry koreanName.
Proof.
  intros Hkeep Hk. unfold COUNTRY_ISO_MAP in Hk.
  apply elem_of_list_to_map_2 in Hk. apply list_elem_of_In in Hk.
  pose proof (COUNTRY_TABLE_normalized engine Hkeep) as Hall.
  rewrite List.Forall_forall in Hall.
  destruct (Hall _ Hk) as [H1 H2]. simpl in H1, H2.
  repeat split; congruence.
Qed.

(** C6, witness: the first entry of the table, with the Hangul
    normalizer. *)
Lemma normalizeCountry_table_witness :
  COUNTRY_ISO_MAP !! js "브라질" = Some (js "BR") /\
  normalizeCountry (js "브라질") = Text (js "BR") /\
  normalizeCountry (js "브 라 질") = Text (js "BR").
Proof.
  split; [vm_compute; reflexivity|].
  destruct (normalizeCountry_table hangulEngine (js "브라질") (js "BR"))
    as (H1 & H2 & _);
    [exact hangulEngine_keepsPlainText | vm_compute; reflexivity|].
  split; [exact H1 | exact H2].
Defined.

(** ** Currency parsing *)

Section PriceFacts.
Context {engine : UnicodeNFC}.

Lemma dataRow_invalid_price sheet nameIdx priceIdx currentCountry item :
  Number_isFinite (parsePrice (cellAt item priceIdx))
    && gtZero (parsePrice (cellAt item priceIdx)) = false ->
  snd (dataRow sheet nameIdx priceIdx currentCountry item) = None.
Proof.
  intros H. unfold dataRow. cbv zeta. rewrite H.
  destruct (_ || _); reflexivity.
Qed.

Lemma dataRow_falsy_price sheet nameIdx priceIdx currentCountry item :
  truthy (cellAt item priceIdx) = false ->
  snd (dataRow sheet nameIdx priceIdx currentCountry item) = None.
Proof.
  intros H. unfold dataRow. cbv zeta. rewrite H. cbn [negb].
  rewrite orb_true_r. reflexivity.
Qed.

(** The loop body pushes an item exactly for a valid row. *)
Lemma dataRow_validRow sheet nameIdx priceIdx currentCountry item it :
  snd (dataRow sheet nameIdx priceIdx currentCountry item) = Some it <->
  validRow sheet nameIdx priceIdx (nextCountry currentCountry item) item it.
Proof.
  unfold dataRow, validRow, nextCountry, countryCell. cbv zeta.
  destruct (nonEmpty (sanitizeText _)); cbn [negb orb].
  2:{ split; [discriminate | intros (H & _); discriminate H]. }
  destruct (truthy _); cbn [negb orb].
  2:{ split; [discriminate | intros (_ & H & _); discriminate H]. }
  destruct (truthyCountry (if truthyCountry _ then _ else _)); cbn [negb].
  2:{ split; [discriminate | intros (_ & _ & H & _); discriminate H]. }
  destruct (Number_isFinite _); cbn [andb].
  2:{ split; [discriminate | intros (_ & _ & _ & H & _); discriminate H]. }
  destruct (gtZero _).
  2:{ split; [discriminate | intros (_ & _ & _ & _ & H & _); discriminate H]. }
  cbn [snd]. split.
  - intros [= <-]. repeat split; reflexivity.
  - intros (_ & _ & _ & _ & _ & ->). reflexivity.
Qed.

(** C8: the price cells ["12,000원"], ["₩12000"] and [" 12000 "] parse to
    12000 (the binary64 number with mantissa [12000 * 2^39] and exponent
    [-39]), and a data row with such a price cell, a non-empty name and a
    country in force pushes an item of price 12000; a row whose price cell
    is ["0"], ["-5"], ["abc"] or the empty string pushes no item; and so
    does every row whose parsed price is not finite or not above zero. *)
Theorem parsePrice_currency :
  numberOfZ 12000 = S754_finite false (12000 * 2 ^ 39) (-39) /\
  parsePrice (VString (js "12,000원")) = numberOfZ 12000 /\
  parsePrice (VString (js "₩12000")) = numberOfZ 12000 /\
  parsePrice (VString (js " 12000 ")) = numberOfZ 12000 /\
  (forall sheet nameIdx priceIdx currentCountry item good,
     In good [js "12,000원"; js "₩12000"; js " 12000 "] ->
     cellAt item priceIdx = VString good ->
     nonEmpty (sanitizeText
                 (VString (ToString (orElse (cellAt item nameIdx) (VString [])))))
       = true ->
     truthyCountry (nextCountry currentCountry item) = true ->
     snd (dataRow sheet nameIdx priceIdx currentCountry item)
     = Some {| country := nextCountry currentCountry item;
               name := sanitizeText
                         (VString (ToString (orElse (cellAt item nameIdx)
                                                    (VString []))));
               price := numberOfZ 12000;
               priceGroup := sheet |}) /\
  (forall sheet nameIdx priceIdx currentCountry item bad,
     In bad [js "0"; js "-5"; js "abc"; js ""] ->
     cellAt item priceIdx = VString bad ->
     snd (dataRow sheet nameIdx priceIdx currentCountry item) = None) /\
  (forall sheet nameIdx priceIdx currentCountry item,
     Number_isFinite (parsePrice (cellAt item priceIdx)) = false \/
     gtZero (parsePrice (cellAt item priceIdx)) = false ->
     snd (dataRow sheet nameIdx priceIdx currentCountry item) = None).
Proof.
  split; [vm_compute; reflexivity|].
  split; [vm_compute; reflexivity|].
  split; [vm_compute; reflexivity|].
  split; [vm_compute; reflexivity|].
  split; [|split].
  - intros sheet nameIdx priceIdx currentCountry item good Hgood Hcell Hname Hc.
    apply dataRow_validRow. unfold validRow. cbv zeta. rewrite Hcell.
    simpl in Hgood.
    destruct Hgood as [<-|[<-|[<-|[]]]];
      (split; [exact Hname|]; split; [reflexivity|]; split; [exact Hc|];
       split; [vm_compute; reflexivity|]; split; [vm_compute; reflexivity|];
       f_equal; vm_compute; reflexivity).
  - intros sheet nameIdx priceIdx currentCountry item bad Hbad Hcell.
    simpl in Hbad.
    destruct Hbad as [<-|[<-|[<-|[<-|[]]]]].
    1-3: apply dataRow_invalid_price; rewrite Hcell; vm_compute; reflexivity.
    apply dataRow_falsy_price. rewrite Hcell. reflexivity.
  - intros sheet nameIdx priceIdx currentCountry item H.
    apply dataRow_invalid_price.
    destruct H as [-> | ->]; [reflexivity | apply andb_false_r].
Qed.

End PriceFacts.

(** C8, witness: in a Brazilian block, a row priced ["12,000원"] pushes an
    item of price 12000; a row priced ["-5"], and one priced ["1e999"],
    which parses to infinity, push nothing. *)
Lemma parsePrice_currency_witness :
  snd (dataRow (js "(1)") 2 3 (Text (js "BR"))
         [VString []; VString []; VString (js "Santos"); VString (js "12,000원")])
    = Some {| country := Text (js "BR"); name := js "Santos";
              price := numberOfZ 12000; priceGroup := js "(1)" |} /\
  snd (dataRow (js "(1)") 2 3 (Text (js "BR"))
         [VString []; VString []; VString (js "Santos"); VString (js "-5")])
    = None /\
  snd (dataRow (js "(1)") 2 3 (Text (js "BR"))
         [VString []; VString []; VString (js "Santos"); VString (js "1e999")])
    = None.
Proof.
  destruct (@parsePrice_currency hangulEngine)
    as (_ & _ & _ & _ & Hgood & Hbad & Hinv).
  split; [|split].
  - apply (Hgood (js "(1)") 2%Z 3%Z (Text (js "BR"))
             [VString []; VString []; VString (js "Santos");
              VString (js "12,000원")] (js "12,000원"));
      [ left; reflexivity | reflexivity | vm_compute; reflexivity
      | vm_compute; reflexivity ].
  - apply (Hbad _ _ _ _ _ (js "-5")); [vm_compute; tauto | reflexivity].
  - apply Hinv. left. vm_compute. reflexivity.
Defined.

(** ** The loop body *)

Section RowFacts.
Context {engine : UnicodeNFC}.


Lemma dataRow_fst sheet nameIdx priceIdx currentCountry item :
  fst (dataRow sheet nameIdx priceIdx currentCountry item)
    = nextCountry currentCountry item.
Proof.
  unfold dataRow, nextCountry, countryCell. cbv zeta.
  destruct (_ || _); [reflexivity|].
  destruct (_ && _); reflexivity.
Qed.

(** What the loop body has checked of an item it pushes. *)
Lemma dataRow_pushed sheet nameIdx priceIdx currentCountry item it :
  snd (dataRow sheet nameIdx priceIdx currentCountry item) = Some it ->
  country it = nextCountry currentCountry item /\
  truthyCountry (country it) = true /\
  name it = sanitizeText
              (VString (ToString (orElse (cellAt item nameIdx) (VString [])))) /\
  nonEmpty (name it) = true /\
  truthy (cellAt item priceIdx) = true /\
  price it = parsePrice (cellAt item priceIdx) /\
  Number_isFinite (price it) = true /\
  gtZero (price it) = true /\
  priceGroup it = sheet.
Proof.
  unfold dataRow, nextCountry, countryCell. cbv zeta.
  destruct (negb (nonEmpty (sanitizeText _))) eqn:Hn; [discriminate|].
  destruct (negb (truthy _)) eqn:Hp; [discriminate|].
  destruct (negb (truthyCountry (if truthyCountry _ then _ else _))) eqn:Hc;
    [discriminate|].
  cbn [orb].
  destruct (_ && _) eqn:Hv; [|discriminate].
  intros [= <-]. cbn [country name price priceGroup].
  apply negb_false_iff in Hn, Hp, Hc. apply andb_prop in Hv as [Hf Hg].
  repeat split; assumption.
Qed.

Lemma walkRows_cons sheet nameIdx priceIdx currentCountry item rest :
  walkRows sheet nameIdx priceIdx currentCountry (item :: rest)
  = match snd (dataRow sheet nameIdx priceIdx currentCountry item) with
    | Some it => [it]
    | None => []
    end ++ walkRows sheet nameIdx priceIdx (nextCountry currentCountry item) rest.
Proof.
  rewrite <- (dataRow_fst sheet nameIdx priceIdx). cbn [walkRows].
  destruct (dataRow sheet nameIdx priceIdx currentCountry item) as [c [it|]];
    reflexivity.
Qed.

Lemma walkRows_app sheet nameIdx priceIdx currentCountry items rest :
  walkRows sheet nameIdx priceIdx currentCountry (items ++ rest)
  = walkRows sheet nameIdx priceIdx currentCountry items
    ++ walkRows sheet nameIdx priceIdx (countryAfter currentCountry items) rest.
Proof.
  revert currentCountry. induction items as [|item items IH]; intros cc.
  - reflexivity.
  - rewrite <- app_comm_cons, !walkRows_cons, IH, <- app_assoc. reflexivity.
Qed.

Lemma countryAfter_silent currentCountry items :
  Forall (fun r => countryCell r = Text []) items ->
  countryAfter currentCountry items = currentCountry.
Proof.
  unfold countryAfter. intros H. revert currentCountry.
  induction H as [|item items Hi Hr IH]; intros cc; simpl; [reflexivity|].
  unfold nextCountry at 2. rewrite Hi. apply IH.
Qed.

Lemma dataRow_no_country sheet nameIdx priceIdx item :
  countryCell item = Text [] ->
  snd (dataRow sheet nameIdx priceIdx (Text []) item) = None.
Proof.
  intros H. unfold dataRow. cbv zeta. fold (countryCell item). rewrite H.
  cbn [truthyCountry nonEmpty negb]. rewrite !orb_true_r. reflexivity.
Qed.

Lemma walkRows_no_country sheet nameIdx priceIdx items :
  Forall (fun r => countryCell r = Text []) items ->
  walkRows sheet nameIdx priceIdx (Text []) items = [].
Proof.
  induction 1 as [|item items Hi Hr IH]; [reflexivity|].
  rewrite walkRows_cons, dataRow_no_country by exact Hi.
  unfold nextCountry. rewrite Hi. exact IH.
Qed.

Lemma walkRows_country sheet nameIdx priceIdx c items :
  Forall (fun r => countryCell r = Text []) items ->
  Forall (fun it => country it = c) (walkRows sheet nameIdx priceIdx c items).
Proof.
  induction 1 as [|item items Hi Hr IH]; [constructor|].
  rewrite walkRows_cons.
  assert (Hn : nextCountry c item = c) by (unfold nextCountry; rewrite Hi; reflexivity).
  rewrite Hn. apply Forall_app. split; [|exact IH].
  destruct (snd (dataRow _ _ _ c item)) as [it|] eqn:E; constructor; [|constructor].
  apply dataRow_pushed in E. rewrite Hn in E. tauto.
Qed.


Lemma dataRow_next sheet nameIdx priceIdx c1 c2 item :
  nextCountry c1 item = nextCountry c2 item ->
  dataRow sheet nameIdx priceIdx c1 item = dataRow sheet nameIdx priceIdx c2 item.
Proof.
  unfold dataRow. cbv zeta. fold (countryCell item).
  fold (nextCountry c1 item). fold (nextCountry c2 item).
  intros ->. reflexivity.
Qed.

(** The sticky country of a walk: set by a row whose country cell
    normalizes to a non-empty value, kept over the rows that follow without
    one, replaced by the next row that has one. *)
Lemma walkRows_sticky sheet nameIdx priceIdx currentCountry item t quiet :
  cellAt item countryIdx = VString t ->
  truthyCountry (normalizeCountry t) = true ->
  Forall (fun r => truthyCountry (countryCell r) = false) quiet ->
  Forall (fun it => country it = normalizeCountry t)
         (walkRows sheet nameIdx priceIdx currentCountry (item :: quiet)) /\
  (forall rest,
     walkRows sheet nameIdx priceIdx currentCountry (item :: quiet ++ rest)
     = walkRows sheet nameIdx priceIdx currentCountry (item :: quiet)
       ++ walkRows sheet nameIdx priceIdx (normalizeCountry t) rest) /\
  (forall next t' rest,
     cellAt next countryIdx = VString t' ->
     truthyCountry (normalizeCountry t') = true ->
     walkRows sheet nameIdx priceIdx (normalizeCountry t) (next :: rest)
     = walkRows sheet nameIdx priceIdx (normalizeCountry t') (next :: rest)).
Proof.
  intros Hcell Hne Hquiet.
  assert (Hq : Forall (fun r => countryCell r = Text []) quiet).
  { eapply List.Forall_impl; [|exact Hquiet]. cbv beta. intros r Hr.
    destruct (countryCell r) as [[|c s]|property];
      [reflexivity | discriminate Hr | discriminate Hr]. }
  assert (Hset : forall cc row u, cellAt row countryIdx = VString u ->
                   truthyCountry (normalizeCountry u) = true ->
                   nextCountry cc row = normalizeCountry u).
  { intros cc row u Hrow Hu. unfold nextCountry, countryCell.
    rewrite Hrow, Hu. reflexivity. }
  assert (Hone : forall cc row u, cellAt row countryIdx = VString u ->
                   truthyCountry (normalizeCountry u) = true ->
                   Forall (fun it => country it = normalizeCountry u)
                     match snd (dataRow sheet nameIdx priceIdx cc row) with
                     | Some it => [it]
                     | None => []
                     end).
  { intros cc row u Hrow Hu.
    destruct (snd (dataRow _ _ _ cc row)) as [it|] eqn:E; constructor;
      [|constructor].
    apply dataRow_pushed in E. rewrite (Hset _ _ _ Hrow Hu) in E. tauto. }
  split; [|split].
  - rewrite walkRows_cons, (Hset _ _ _ Hcell Hne). apply Forall_app. split.
    + apply Hone; assumption.
    + apply walkRows_country, Hq.
  - intros rest. rewrite app_comm_cons, walkRows_app. f_equal. f_equal.
    unfold countryAfter. cbn [fold_left]. rewrite (Hset _ _ _ Hcell Hne).
    apply countryAfter_silent, Hq.
  - intros next t' rest Hnext Hne'. rewrite !walkRows_cons.
    rewrite !(Hset _ _ _ Hnext Hne').
    rewrite (dataRow_next _ _ _ (normalizeCountry t) (normalizeCountry t'));
      [reflexivity|].
    rewrite !(Hset _ _ _ Hnext Hne'). reflexivity.
Qed.

(** C3 (amended): every complete header row starts its own walk, which
    runs over all the rows below it with the current country reset to
    empty; within a walk the country only ever changes to a non-empty
    normalized country cell; so the rows of a walk that lie above its
    first non-empty country cell push nothing in that walk, whatever an
    earlier section has established. *)
Theorem header_resets_country sheet :
  (forall header below nameIdx priceIdx,
     detectHeader header = Some (nameIdx, priceIdx) ->
     scanRows sheet (header :: below)
     = walkRows sheet nameIdx priceIdx (Text []) below ++ scanRows sheet below) /\
  (forall nameIdx priceIdx currentCountry item,
     fst (dataRow sheet nameIdx priceIdx currentCountry item) = currentCountry \/
     exists t, cellAt item countryIdx = VString t /\
               truthyCountry (normalizeCountry t) = true /\
               fst (dataRow sheet nameIdx priceIdx currentCountry item)
                 = normalizeCountry t) /\
  (forall nameIdx priceIdx quiet rest,
     Forall (fun r => countryCell r = Text []) quiet ->
     walkRows sheet nameIdx priceIdx (Text []) (quiet ++ rest)
     = walkRows sheet nameIdx priceIdx (Text []) rest) /\
  (forall rows i j,
     (forall r row, (i < r <= j)%nat -> rows !! r = Some row ->
                    countryCell row = Text []) ->
     walkCountry rows i j = Text []).
Proof.
  split; [|split; [|split]].
  - intros header below nameIdx priceIdx H. cbn [scanRows]. rewrite H.
    reflexivity.
  - intros nameIdx priceIdx cc row. rewrite dataRow_fst.
    unfold nextCountry, countryCell.
    destruct (cellAt row countryIdx) as [| | | |t]; try (left; reflexivity).
    destruct (truthyCountry (normalizeCountry t)) eqn:E;
      [right | left; reflexivity].
    exists t. auto.
  - intros nameIdx priceIdx quiet rest Hq.
    rewrite walkRows_app, (walkRows_no_country _ _ _ _ Hq).
    rewrite (countryAfter_silent _ _ Hq). reflexivity.
  - intros rows i j Hrows. unfold walkCountry. apply countryAfter_silent.
    apply Forall_forall. intros row Hin.
    apply list_elem_of_lookup in Hin as [d Hd].
    pose proof (lookup_lt_Some _ _ _ Hd) as Hlt.
    rewrite length_take in Hlt.
    rewrite lookup_take_lt in Hd by lia. rewrite lookup_drop in Hd.
    apply (Hrows (Datatypes.S i + d)%nat); [lia | exact Hd].
Qed.

End RowFacts.

(** C2: within the walk below a header, once the country cell of a data
    row is a string that normalizes to a non-empty value, every item pushed
    for that row and for the following rows whose country cell does not
    normalize to a non-empty value carries that value, and the walk goes on
    with it until a later row with such a cell replaces it; in particular
    the sheet ["(1)"] with a header, a row for ["브라질"] and two rows
    without a country yields three items, all of country ["BR"]. *)
Theorem sticky_country :
  (forall (engine : UnicodeNFC) sheet nameIdx priceIdx currentCountry
          item t quiet,
     cellAt item countryIdx = VString t ->
     truthyCountry (normalizeCountry t) = true ->
     Forall (fun r => truthyCountry (countryCell r) = false) quiet ->
     Forall (fun it => country it = normalizeCountry t)
            (walkRows sheet nameIdx priceIdx currentCountry (item :: quiet)) /\
     (forall rest,
        walkRows sheet nameIdx priceIdx currentCountry (item :: quiet ++ rest)
        = walkRows sheet nameIdx priceIdx currentCountry (item :: quiet)
          ++ walkRows sheet nameIdx priceIdx (normalizeCountry t) rest) /\
     (forall next t' rest,
        cellAt next countryIdx = VString t' ->
        truthyCountry (normalizeCountry t') = true ->
        walkRows sheet nameIdx priceIdx (normalizeCountry t) (next :: rest)
        = walkRows sheet nameIdx priceIdx (normalizeCountry t') (next :: rest))) /\
  handleExcelUpload brazilBlock
  = Returns [ priceItem "BR" "산토스" 12000 "(1)"; priceItem "BR" "세하도" 13000 "(1)";
              priceItem "BR" "모지아나" 14000 "(1)" ].
Proof.
  split; [|vm_compute; reflexivity].
  intros engine sheet nameIdx priceIdx currentCountry item t quiet.
  apply walkRows_sticky.
Qed.

(** C2, witness: the three rows of the example, walked from the header:
    every item pushed carries ["BR"]. *)
Lemma sticky_country_witness :
  Forall (fun it => country it = Text (js "BR"))
    (walkRows (js "(1)") 2 3 (Text [])
       [ santos; [txt ""; txt ""; txt "세하도"; txt "₩13000"];
         [txt ""; txt ""; txt "모지아나"; VNumber (numberOfZ 14000)] ]).
Proof.
  refine (proj1 (proj1 sticky_country hangulEngine (js "(1)") 2%Z 3%Z (Text [])
                   santos
                   (js "브라질") _ _ _ _)).
  - reflexivity.
  - vm_compute; reflexivity.
  - repeat constructor.
Defined.

(** C3, witness: in the resumed sheet, the walk of the second header holds
    no country at the row below it, and pushes nothing. *)
Lemma header_resets_country_witness :
  walkCountry resumedRows 2 3 = Text [] /\
  walkRows (js "(1)") 2 3 (Text []) (skipn 3 resumedRows) = [].
Proof.
  destruct (header_resets_country (js "(1)")) as (_ & _ & Hquiet & Hwalk).
  split.
  - apply Hwalk. intros r row Hr Hrow.
    assert (r = 3%nat) as -> by lia.
    vm_compute in Hrow. injection Hrow as <-. vm_compute. reflexivity.
  - rewrite <- (app_nil_r (skipn 3 resumedRows)). rewrite Hquiet; [reflexivity|].
    repeat constructor.
Defined.

(** C3, counterexample: a sheet with a header, a row for Brazil, a second
    header and a row without a country.  The walk of the first header has
    established ["BR"] above the second header, yet the walk of the second
    header reaches the last row with an empty country and pushes nothing for
    it.  The row is pushed once, by the walk of the first header, which
    reads it through the columns of the first header: when the second
    header lists its columns in another order, the row yields no item at
    all. *)
Lemma country_reset_at_second_header :
  ~ countryCarriesOver resumedRows /\
  walkCountry resumedRows 0 1 = Text (js "BR") /\
  walkCountry resumedRows 2 3 = Text [] /\
  scanRows (js "(1)") resumedRows
  = [ priceItem "BR" "산토스" 12000 "(1)"; priceItem "BR" "세하도" 13000 "(1)" ] /\
  scanRows (js "(1)") resumedSwapped = [ priceItem "BR" "산토스" 12000 "(1)" ].
Proof.
  split; [|vm_compute; auto].
  intros H.
  specialize (H 0%nat 2%nat 3%nat bareHeader bareHeader (Text (js "BR"))).
  assert (Hfalse : walkCountry resumedRows 2 3 = Text (js "BR")).
  { apply H;
      [ lia | vm_compute; lia
      | reflexivity | intros E; vm_compute in E; discriminate E
      | reflexivity | intros E; vm_compute in E; discriminate E
      | vm_compute; reflexivity | reflexivity | ].
    intros r row Hr Hrow.
    assert (r = 2%nat \/ r = 3%nat) as [-> | ->] by lia;
      vm_compute in Hrow; injection Hrow as <-; vm_compute; reflexivity. }
  vm_compute in Hfalse. discriminate.
Qed.

(** ** The recorded scan *)

Section PushFacts.
Context {engine : UnicodeNFC}.

Lemma walkRowsAt_cons sheet nameIdx priceIdx k i j currentCountry item rest :
  walkRowsAt sheet nameIdx priceIdx k i j currentCountry (item :: rest)
  = match snd (dataRow sheet nameIdx priceIdx currentCountry item) with
    | Some it => [mkPush k i j it]
    | None => []
    end ++ walkRowsAt sheet nameIdx priceIdx k i (S j)
             (nextCountry currentCountry item) rest.
Proof.
  rewrite <- (dataRow_fst sheet nameIdx priceIdx). cbn [walkRowsAt].
  destruct (dataRow sheet nameIdx priceIdx currentCountry item) as [c [it|]];
    reflexivity.
Qed.

Lemma walkRowsAt_pushed sheet nameIdx priceIdx k i j currentCountry below :
  map pushed (walkRowsAt sheet nameIdx priceIdx k i j currentCountry below)
  = walkRows sheet nameIdx priceIdx currentCountry below.
Proof.
  revert j currentCountry.
  induction below as [|item rest IH]; intros j cc; [reflexivity|].
  rewrite walkRowsAt_cons, walkRows_cons, map_app, IH.
  destruct (snd (dataRow _ _ _ cc item)); reflexivity.
Qed.

Lemma scanRowsAt_pushed sheet k i rows :
  map pushed (scanRowsAt sheet k i rows) = scanRows sheet rows.
Proof.
  revert i. induction rows as [|row below IH]; intros i; [reflexivity|].
  cbn [scanRowsAt scanRows].
  destruct (detectHeader row) as [[nameIdx priceIdx]|]; [|apply IH].
  rewrite map_app, walkRowsAt_pushed, IH. reflexivity.
Qed.

Lemma elem_of_walkRowsAt sheet nameIdx priceIdx k i j currentCountry below q :
  q ∈ walkRowsAt sheet nameIdx priceIdx k i j currentCountry below <->
  exists d item,
    below !! d = Some item /\
    atSheet q = k /\ atHeader q = i /\ atRow q = (j + d)%nat /\
    snd (dataRow sheet nameIdx priceIdx
           (countryAfter currentCountry (take d below)) item) = Some (pushed q).
Proof.
  revert j currentCountry.
  induction below as [|item rest IH]; intros j cc.
  - cbn [walkRowsAt]. split; [intros H; inversion H|].
    intros (d & it & H & _). destruct d; discriminate H.
  - rewrite walkRowsAt_cons, elem_of_app, IH. split.
    + intros [H | (d & it & Hd & Hk & Hi & Hj & Hs)].
      * destruct (snd (dataRow _ _ _ cc item)) as [it|] eqn:E; [|inversion H].
        apply list_elem_of_singleton in H. subst q.
        exists 0%nat, item. cbn. rewrite Nat.add_0_r. auto.
      * exists (S d), it. cbn. repeat split; auto. lia.
    + intros (d & it & Hd & Hk & Hi & Hj & Hs). destruct d as [|d].
      * left. cbn in Hd, Hs. injection Hd as ->. rewrite Hs.
        apply list_elem_of_singleton. destruct q; cbn in *. subst.
        rewrite Nat.add_0_r. reflexivity.
      * right. exists d, it. cbn in Hd, Hs. repeat split; auto. lia.
Qed.

Lemma elem_of_scanRowsAt sheet k i rows q :
  q ∈ scanRowsAt sheet k i rows <->
  exists d header nameIdx priceIdx,
    rows !! d = Some header /\
    detectHeader header = Some (nameIdx, priceIdx) /\
    q ∈ walkRowsAt sheet nameIdx priceIdx k (i + d) (S (i + d)) (Text [])
          (drop (S d) rows).
Proof.
  revert i. induction rows as [|row below IH]; intros i.
  - cbn [scanRowsAt]. split; [intros H; inversion H|].
    intros (d & h & n & p & H & _). destruct d; discriminate H.
  - assert (Hshift : q ∈ scanRowsAt sheet k (S i) below <->
              exists d header nameIdx priceIdx,
                (row :: below) !! S d = Some header /\
                detectHeader header = Some (nameIdx, priceIdx) /\
                q ∈ walkRowsAt sheet nameIdx priceIdx k (i + S d) (S (i + S d))
                      (Text []) (drop (S (S d)) (row :: below))).
    { rewrite IH. split; intros (d & h & n & p & Hd & Hh & Hq);
        exists d, h, n, p; cbn in *;
        replace (i + S d)%nat with (S i + d)%nat in * by lia; auto. }
    cbn [scanRowsAt].
    destruct (detectHeader row) as [[nameIdx priceIdx]|] eqn:Hrow.
    + rewrite elem_of_app, Hshift. split.
      * intros [H | (d & H)]; [|exists (S d); exact H].
        exists 0%nat, row, nameIdx, priceIdx. cbn. rewrite Nat.add_0_r. auto.
      * intros (d & h & n & p & Hd & Hh & Hq). destruct d as [|d].
        -- left. cbn in Hd. injection Hd as <-.
           rewrite Hrow in Hh. injection Hh as <- <-.
           cbn in Hq. rewrite Nat.add_0_r in Hq. exact Hq.
        -- right. exists d, h, n, p. auto.
    + rewrite Hshift. split.
      * intros (d & H). exists (S d). exact H.
      * intros (d & h & n & p & Hd & Hh & Hq). destruct d as [|d].
        -- cbn in Hd. injection Hd as <-. congruence.
        -- exists d, h, n, p. auto.
Qed.

Lemma elem_of_pushesFrom wb k names q :
  q ∈ pushesFrom wb k names <->
  exists d sheet,
    names !! d = Some sheet /\ sheet ∈ ALLOWED_SHEETS /\
    q ∈ scanRowsAt sheet (k + d) 0 (sheet_to_json wb sheet).
Proof.
  revert k. induction names as [|sheet rest IH]; intros k.
  - cbn [pushesFrom]. split; [intros H; inversion H|].
    intros (d & s & H & _). destruct d; discriminate H.
  - assert (Hshift : q ∈ pushesFrom wb (S k) rest <->
              exists d s, (sheet :: rest) !! S d = Some s /\ s ∈ ALLOWED_SHEETS /\
                q ∈ scanRowsAt s (k + S d) 0 (sheet_to_json wb s)).
    { rewrite IH. split; intros (d & s & Hd & Hs & Hq); exists d, s; cbn in *;
        replace (k + S d)%nat with (S k + d)%nat in * by lia; auto. }
    cbn [pushesFrom]. case_bool_decide as Hallowed.
    + rewrite elem_of_app, Hshift. split.
      * intros [H | (d & H)]; [|exists (S d); exact H].
        exists 0%nat, sheet. cbn. rewrite Nat.add_0_r. auto.
      * intros (d & s & Hd & Hs & Hq). destruct d as [|d].
        -- left. cbn in Hd. injection Hd as <-.
           rewrite Nat.add_0_r in Hq. exact Hq.
        -- right. exists d, s. auto.
    + rewrite Hshift. split.
      * intros (d & H). exists (S d). exact H.
      * intros (d & s & Hd & Hs & Hq). destruct d as [|d].
        -- cbn in Hd. injection Hd as <-. contradiction.
        -- exists d, s. auto.
Qed.


Lemma elem_of_pushes wb q : q ∈ pushes wb <-> accepted wb q.
Proof.
  unfold pushes, accepted. rewrite elem_of_pushesFrom. split.
  - intros (k & sheet & Hk & Hallowed & Hq).
    apply elem_of_scanRowsAt in Hq as (i & header & nameIdx & priceIdx & Hi & Hh & Hq).
    apply elem_of_walkRowsAt in Hq as (d & item & Hd & Hqk & Hqi & Hqj & Hs).
    cbn in Hqk, Hqi, Hqj. rewrite lookup_drop in Hd.
    exists sheet, header, nameIdx, priceIdx, item.
    rewrite Hqk, Hqi, Hqj. repeat split; auto; [lia|].
    unfold walkCountry.
    replace (S (i + d) - 1 - i)%nat with d by lia. exact Hs.
  - intros (sheet & header & nameIdx & priceIdx & item
            & Hk & Hallowed & Hi & Hh & Hlt & Hj & Hs).
    exists (atSheet q), sheet. repeat split; auto.
    apply elem_of_scanRowsAt. exists (atHeader q), header, nameIdx, priceIdx.
    repeat split; auto.
    apply elem_of_walkRowsAt. exists (atRow q - S (atHeader q))%nat, item.
    cbn. rewrite lookup_drop.
    replace (S (atHeader q) + (atRow q - S (atHeader q)))%nat with (atRow q) by lia.
    repeat split; auto; [lia|].
    unfold walkCountry in Hs.
    replace (atRow q - 1 - atHeader q)%nat
      with (atRow q - S (atHeader q))%nat in Hs by lia.
    exact Hs.
Qed.

Lemma walkRowsAt_sorted sheet nameIdx priceIdx k i j currentCountry below :
  StronglySorted walkOrder
    (walkRowsAt sheet nameIdx priceIdx k i j currentCountry below).
Proof.
  revert j currentCountry.
  induction below as [|item rest IH]; intros j cc; [constructor|].
  rewrite walkRowsAt_cons. apply StronglySorted_app_2; [| |apply IH].
  - intros p q Hp Hq.
    destruct (snd (dataRow _ _ _ cc item)) as [it|]; [|inversion Hp].
    apply list_elem_of_singleton in Hp. subst p.
    apply elem_of_walkRowsAt in Hq as (d & _ & _ & Hk & Hi & Hj & _).
    right. cbn. split; [auto|]. right. split; [auto|]. lia.
  - destruct (snd (dataRow _ _ _ cc item)); repeat constructor.
Qed.

Lemma scanRowsAt_sorted sheet k i rows :
  StronglySorted walkOrder (scanRowsAt sheet k i rows).
Proof.
  revert i. induction rows as [|row below IH]; intros i; [constructor|].
  cbn [scanRowsAt].
  destruct (detectHeader row) as [[nameIdx priceIdx]|]; [|apply IH].
  apply StronglySorted_app_2; [|apply walkRowsAt_sorted|apply IH].
  intros p q Hp Hq.
  apply elem_of_walkRowsAt in Hp as (_ & _ & _ & Hk & Hi & _).
  apply elem_of_scanRowsAt in Hq as (d & h & n & c & _ & _ & Hq).
  apply elem_of_walkRowsAt in Hq as (_ & _ & _ & Hk' & Hi' & _).
  right. split; [congruence|]. left. lia.
Qed.

Lemma pushesFrom_sorted wb k names :
  StronglySorted walkOrder (pushesFrom wb k names).
Proof.
  revert k. induction names as [|sheet rest IH]; intros k; [constructor|].
  cbn [pushesFrom]. case_bool_decide; [|apply IH].
  apply StronglySorted_app_2; [|apply scanRowsAt_sorted|apply IH].
  intros p q Hp Hq.
  apply elem_of_scanRowsAt in Hp as (d & h & n & c & _ & _ & Hp).
  apply elem_of_walkRowsAt in Hp as (_ & _ & _ & Hk & _).
  apply elem_of_pushesFrom in Hq as (d' & s & _ & _ & Hq).
  apply elem_of_scanRowsAt in Hq as (d'' & h' & n' & c' & _ & _ & Hq).
  apply elem_of_walkRowsAt in Hq as (_ & _ & _ & Hk' & _).
  left. lia.
Qed.

(** The loop over the sheets either stops at the first permitted sheet over
    the ceiling or returns what the permitted sheets push. *)
Lemma scanSheets_outcome wb k names collected :
  scanSheets wb names collected
  = match List.find (fun sheet =>
            bool_decide (sheet ∈ ALLOWED_SHEETS)
            && (MAX_ROWS_SAFE <? Z.of_nat (length (sheet_to_json wb sheet)))%Z)
          names with
    | Some sheet =>
      Throws (SheetTooLarge (Z.of_nat (length (sheet_to_json wb sheet))))
    | None => Returns (collected ++ map pushed (pushesFrom wb k names))
    end.
Proof.
  revert k collected.
  induction names as [|sheet rest IH]; intros k collected.
  - cbn. rewrite app_nil_r. reflexivity.
  - cbn [scanSheets pushesFrom List.find].
    case_bool_decide as Hallowed; cbn [negb andb]; [|apply IH].
    destruct (_ <? _)%Z; [reflexivity|].
    rewrite (IH (S k)), map_app, scanRowsAt_pushed, app_assoc. reflexivity.
Qed.

Lemma scan_outcome wb :
  scan wb
  = match firstTooLarge wb with
    | Some sheet =>
      Throws (SheetTooLarge (Z.of_nat (length (sheet_to_json wb sheet))))
    | None =>
      match pushes wb with
      | [] => Throws NoValidItems
      | _ :: _ => Returns (map pushed (pushes wb))
      end
    end.
Proof.
  unfold scan, firstTooLarge, pushes.
  rewrite (scanSheets_outcome wb 0). destruct (List.find _ _); [reflexivity|].
  cbn [app]. destruct (pushesFrom wb 0 (SheetNames wb)); reflexivity.
Qed.

Lemma withinCeiling_firstTooLarge wb :
  withinCeiling wb <-> firstTooLarge wb = None.
Proof.
  unfold withinCeiling, firstTooLarge. split.
  - intros H. destruct (List.find _ _) as [sheet|] eqn:E; [|reflexivity].
    apply List.find_some in E as [Hin Hbig].
    apply andb_prop in Hbig as [Hallowed Hbig].
    apply bool_decide_eq_true in Hallowed. apply Z.ltb_lt in Hbig.
    specialize (H sheet Hin Hallowed). lia.
  - intros H sheet Hin Hallowed.
    pose proof (List.find_none _ _ H sheet Hin) as Hsmall. cbn beta in Hsmall.
    rewrite bool_decide_eq_true_2 in Hsmall by exact Hallowed.
    cbn [andb] in Hsmall. apply Z.ltb_ge in Hsmall. exact Hsmall.
Qed.

(** What the scan returns when no permitted sheet is over the ceiling:
    the items of exactly the accepted pushes, in the order sheet, then
    header row, then row below that header. *)
Lemma scan_returns_accepted wb :
  withinCeiling wb ->
  (scan wb = Throws NoValidItems <-> pushes wb = []) /\
  (pushes wb <> [] -> scan wb = Returns (map pushed (pushes wb))) /\
  StronglySorted walkOrder (pushes wb) /\
  (forall p, p ∈ pushes wb <-> accepted wb p).
Proof.
  intros Hceil. apply withinCeiling_firstTooLarge in Hceil.
  rewrite scan_outcome, Hceil.
  split; [|split; [|split]].
  - destruct (pushes wb); split; intros H; try reflexivity; discriminate H.
  - destruct (pushes wb); [intros H; elim H|]; reflexivity.
  - apply pushesFrom_sorted.
  - apply elem_of_pushes.
Qed.

Lemma header_unique (rows : list Row) i j h1 h2 :
  (length (List.filter isHeader rows) <= 1)%nat ->
  rows !! i = Some h1 -> isHeader h1 = true ->
  rows !! j = Some h2 -> isHeader h2 = true ->
  i = j.
Proof.
  assert (Hnone : forall (l : list Row) d h,
            length (List.filter isHeader l) = 0%nat ->
            l !! d = Some h -> isHeader h = true -> False).
  { intros l d h Hlen Hd Hh.
    assert (Hin : In h (List.filter isHeader l)).
    { apply List.filter_In. split; [|exact Hh].
      apply list_elem_of_In, list_elem_of_lookup. eauto. }
    destruct (List.filter isHeader l); [destruct Hin | discriminate Hlen]. }
  revert i j. induction rows as [|row rest IH]; intros i j Hlen Hi H1 Hj H2.
  - destruct i; discriminate Hi.
  - cbn [List.filter] in Hlen.
    destruct i as [|i], j as [|j]; cbn in Hi, Hj.
    + reflexivity.
    + injection Hi as ->. rewrite H1 in Hlen. cbn in Hlen.
      elim (Hnone rest j h2); [lia | assumption | assumption].
    + injection Hj as ->. rewrite H2 in Hlen. cbn in Hlen.
      elim (Hnone rest i h1); [lia | assumption | assumption].
    + f_equal. apply IH; try assumption.
      destruct (isHeader row); cbn in Hlen; lia.
Qed.

Lemma StronglySorted_among (R R' : Push -> Push -> Prop) (l : list Push) :
  (forall p q, p ∈ l -> q ∈ l -> R p q -> R' p q) ->
  StronglySorted R l -> StronglySorted R' l.
Proof.
  intros Himpl H. induction H as [|p l Hl IH Hp]; [constructor|].
  constructor.
  - apply IH. intros x y Hx Hy. apply Himpl; apply list_elem_of_further; assumption.
  - rewrite List.Forall_forall in *. intros q Hq. apply Himpl.
    + apply list_elem_of_here.
    + apply list_elem_of_further, list_elem_of_In, Hq.
    + apply Hp, Hq.
Qed.

Lemma accepted_same_header wb p q :
  singleHeader wb -> accepted wb p -> accepted wb q ->
  atSheet p = atSheet q -> atHeader p = atHeader q.
Proof.
  intros Hsingle (s & h & n & c & r & Hk & Ha & Hi & Hh & _)
         (s' & h' & n' & c' & r' & Hk' & _ & Hi' & Hh' & _) Hsame.
  rewrite Hsame, Hk' in Hk. injection Hk as ->.
  apply (header_unique (sheet_to_json wb s) _ _ h h'); try assumption.
  - apply Hsingle; [|exact Ha].
    apply list_elem_of_In, list_elem_of_lookup. eauto.
  - unfold isHeader. rewrite Hh. reflexivity.
  - unfold isHeader. rewrite Hh'. reflexivity.
Qed.

Lemma walkCountry_step (rows : list Row) i j item :
  (i < j)%nat -> rows !! j = Some item ->
  nextCountry (walkCountry rows i (j - 1)) item = walkCountry rows i j.
Proof.
  intros Hlt Hj. unfold walkCountry, countryAfter.
  replace (j - i)%nat with (S (j - 1 - i)) by lia.
  assert (Hd : drop (S i) rows !! (j - 1 - i)%nat = Some item).
  { rewrite lookup_drop. replace (S i + (j - 1 - i))%nat with j by lia.
    exact Hj. }
  rewrite (take_S_r _ _ _ Hd), fold_left_app. reflexivity.
Qed.

(** The pushes that the loops accept are the valid rows. *)
Lemma accepted_validPush wb p : accepted wb p <-> validPush wb p.
Proof.
  unfold accepted, validPush.
  split; intros (sheet & header & nameIdx & priceIdx & item
                 & Hk & Hallowed & Hi & Hh & Hlt & Hj & Hs);
    exists sheet, header, nameIdx, priceIdx, item;
    (repeat (split; [assumption|])).
  - apply dataRow_validRow in Hs.
    rewrite (walkCountry_step _ _ _ _ Hlt Hj) in Hs. exact Hs.
  - apply dataRow_validRow.
    rewrite (walkCountry_step _ _ _ _ Hlt Hj). exact Hs.
Qed.

Lemma StronglySorted_compared (R : Push -> Push -> Prop) (l : list Push) p q :
  StronglySorted R l -> p ∈ l -> q ∈ l -> p = q \/ R p q \/ R q p.
Proof.
  intros H. induction H as [|x l Hl IH Hx]; intros Hp Hq; [inversion Hp|].
  rewrite List.Forall_forall in Hx.
  apply list_elem_of_In in Hp, Hq. destruct Hp as [<- | Hp], Hq as [<- | Hq].
  - left. reflexivity.
  - right. left. apply Hx, Hq.
  - right. right. apply Hx, Hp.
  - apply IH; apply list_elem_of_In; assumption.
Qed.

(** C1 (amended): for a workbook with at least one sheet, in which no
    permitted sheet is over the row ceiling and every permitted sheet has
    at most one header row, the upload fails with NoValidItems exactly when
    no valid row is found in the permitted sheets; otherwise it returns
    exactly the valid rows, one item each, in sheet order, then row order.
    A row is valid when its name is not empty, its price cell is truthy, a
    country is in force, and its price is finite and above zero. *)
Theorem scan_returns_valid_rows wb :
  SheetNames wb <> [] ->
  withinCeiling wb ->
  singleHeader wb ->
  scanReturnsValidRows wb.
Proof.
  intros Hsheets Hceil Hsingle.
  destruct (scan_returns_accepted wb Hceil) as (Hnone & Hsome & Hsorted & Hacc).
  assert (Hupload : handleExcelUpload wb = scan wb).
  { unfold handleExcelUpload. destruct (SheetNames wb); [elim Hsheets|];
      reflexivity. }
  exists (pushes wb). rewrite Hupload.
  split; [|split; [|split; [exact Hnone | exact Hsome]]].
  - intros p. rewrite Hacc. apply accepted_validPush.
  - eapply StronglySorted_among; [|exact Hsorted].
    intros p q Hp Hq [Hlt | [Hsame Hrest]]; [left; exact Hlt|].
    right. split; [exact Hsame|].
    pose proof (accepted_same_header wb p q Hsingle
                  (proj1 (Hacc p) Hp) (proj1 (Hacc q) Hq) Hsame) as Hh.
    destruct Hrest as [Hlt | [_ Hlt]]; [lia | exact Hlt].
Qed.

End PushFacts.

Lemma twoHeaders_pushes :
  pushes twoHeaders
  = [ mkPush 0 0 2 (priceItem "BR" "산토스" 12000 "(1)");
      mkPush 0 1 2 (priceItem "BR" "산토스" 12000 "(1)") ].
Proof. vm_compute. reflexivity. Qed.

(** C1, witness: the example workbook has a sheet, is within the ceiling
    and has one header row; its upload returns its valid rows. *)
Lemma scan_returns_valid_rows_witness :
  SheetNames brazilBlock <> [] /\
  withinCeiling brazilBlock /\ singleHeader brazilBlock /\
  scanReturnsValidRows brazilBlock.
Proof.
  assert (H0 : SheetNames brazilBlock <> []) by discriminate.
  assert (H : withinCeiling brazilBlock).
  { apply withinCeiling_firstTooLarge. vm_compute. reflexivity. }
  assert (H1 : singleHeader brazilBlock).
  { intros sheet [<-|[]] _. vm_compute. lia. }
  split; [exact H0|]. split; [exact H|]. split; [exact H1|].
  exact (scan_returns_valid_rows brazilBlock H0 H H1).
Defined.

(** C1, counterexample: with one data row under two header rows the upload
    returns two items for that row, so the items are not the valid rows
    taken once each in row order; with a sheet of 20001 rows next to a
    well-formed sheet the upload fails although a valid row is found; and
    for a workbook without sheets the upload fails with EmptyWorkbook, not
    with NoValidItems, although no valid row is found. *)
Lemma scan_not_valid_rows :
  ~ scanReturnsValidRows twoHeaders /\
  handleExcelUpload twoHeaders
  = Returns [ priceItem "BR" "산토스" 12000 "(1)";
              priceItem "BR" "산토스" 12000 "(1)" ] /\
  ~ scanReturnsValidRows oneSheetTooLarge /\
  validPush oneSheetTooLarge (mkPush 0 0 1 (priceItem "BR" "산토스" 12000 "(1)")) /\
  handleExcelUpload oneSheetTooLarge = Throws (SheetTooLarge 20001) /\
  ~ scanReturnsValidRows noSheets /\
  (forall p, ~ validPush noSheets p) /\
  handleExcelUpload noSheets = Throws EmptyWorkbook.
Proof.
  assert (Hbig : handleExcelUpload oneSheetTooLarge = Throws (SheetTooLarge 20001))
    by (vm_compute; reflexivity).
  assert (Hvalid : validPush oneSheetTooLarge
                     (mkPush 0 0 1 (priceItem "BR" "산토스" 12000 "(1)"))).
  { apply accepted_validPush, elem_of_pushes.
    assert (Hp : pushes oneSheetTooLarge
                 = [ mkPush 0 0 1 (priceItem "BR" "산토스" 12000 "(1)") ])
      by (vm_compute; reflexivity).
    rewrite Hp. apply list_elem_of_here. }
  assert (Hempty : forall p, ~ validPush noSheets p).
  { intros p (sheet & header & nameIdx & priceIdx & item & Hk & _).
    cbn in Hk. discriminate Hk. }
  split; [|split; [vm_compute; reflexivity|]].
  { intros (found & Hmem & Hsorted & _).
    set (p1 := mkPush 0 0 2 (priceItem "BR" "산토스" 12000 "(1)")).
    set (p2 := mkPush 0 1 2 (priceItem "BR" "산토스" 12000 "(1)")).
    assert (H1 : p1 ∈ found).
    { apply Hmem, accepted_validPush, elem_of_pushes.
      rewrite twoHeaders_pushes. apply list_elem_of_here. }
    assert (H2 : p2 ∈ found).
    { apply Hmem, accepted_validPush, elem_of_pushes.
      rewrite twoHeaders_pushes. apply list_elem_of_further, list_elem_of_here. }
    destruct (StronglySorted_compared _ _ _ _ Hsorted H1 H2)
      as [Heq | [[Hlt | [_ Hlt]] | [Hlt | [_ Hlt]]]];
      [discriminate Heq | | | |]; cbn in Hlt; lia. }
  split; [|split; [exact Hvalid|split; [exact Hbig|]]].
  { intros (found & Hmem & _ & _ & Hret).
    apply Hmem in Hvalid.
    assert (Hne : found <> []) by (intros ->; inversion Hvalid).
    specialize (Hret Hne). rewrite Hbig in Hret. discriminate Hret. }
  split; [|split; [exact Hempty | reflexivity]].
  intros (found & Hmem & _ & Hnone & _).
  assert (Hnil : found = []).
  { destruct found as [|p l]; [reflexivity|].
    elim (Hempty p). apply Hmem, list_elem_of_here. }
  apply Hnone in Hnil. vm_compute in Hnil. discriminate Hnil.
Qed.

(** ** The scan as a whole *)

Section ScanFacts.
Context {engine : UnicodeNFC}.

Lemma normalizeCountry_known raw : knownCountry (normalizeCountry raw).
Proof.
  unfold normalizeCountry, getCountry. cbv zeta.
  destruct (COUNTRY_ISO_MAP !! _) as [code|].
  - destruct (truthyCountry (Text code)); exact I.
  - case_bool_decide as Hin; [exact Hin | exact I].
Qed.

Lemma nextCountry_known currentCountry item :
  knownCountry currentCountry -> knownCountry (nextCountry currentCountry item).
Proof.
  intros H. unfold nextCountry, countryCell.
  destruct (cellAt item countryIdx) as [| | | |t]; [exact H ..|].
  destruct (truthyCountry (normalizeCountry t));
    [apply normalizeCountry_known | exact H].
Qed.

Lemma countryAfter_known currentCountry items :
  knownCountry currentCountry -> knownCountry (countryAfter currentCountry items).
Proof.
  unfold countryAfter. revert currentCountry.
  induction items as [|item items IH]; intros cc H; [exact H|].
  cbn [fold_left]. apply IH, nextCountry_known, H.
Qed.

Lemma sanitizeText_cleanName x : cleanName (sanitizeText x).
Proof.
  split; [|split; [|split]].
  - pose proof (sanitizeText_spaceIfWhite x) as Hw.
    pose proof (sanitizeText_noZeroWidth x) as Hz.
    rewrite List.Forall_forall in *. intros c Hc.
    specialize (Hw c Hc). specialize (Hz c Hc).
    unfold cleanUnit, spaceIfWhite in *.
    repeat split; try assumption;
      intros ->; specialize (Hw eq_refl); discriminate.
  - unfold sanitizeText, trim. apply trimEnd_head, trimStart_head.
  - unfold sanitizeText, trim. apply trimEnd_last.
  - apply sanitizeText_singleSpaced.
Qed.

(** What the loop has checked of every item it pushes. *)
Lemma accepted_valid wb p :
  accepted wb p ->
  validItem (pushed p) /\
  SheetNames wb !! atSheet p = Some (priceGroup (pushed p)).
Proof.
  intros (sheet & header & nameIdx & priceIdx & item
          & Hk & Hallowed & _ & _ & _ & _ & Hs).
  apply dataRow_pushed in Hs
    as (Hc & Ht & Hn & Hne & _ & _ & Hfin & Hpos & Hg).
  assert (Hknown : knownCountry (country (pushed p))).
  { rewrite Hc. apply nextCountry_known. unfold walkCountry.
    apply countryAfter_known. exact I. }
  split; [|rewrite Hg; exact Hk].
  unfold validItem. rewrite Hg. split; [|split; [|split]].
  - destruct (country (pushed p)) as [label|property]; [exact Ht | exact Hknown].
  - exact Hne.
  - rewrite Hn. apply sanitizeText_cleanName.
  - repeat split; assumption.
Qed.

Lemma scanSheets_withSheet wb sheet rows names collected :
  sheet ∉ ALLOWED_SHEETS ->
  scanSheets (withSheet wb sheet rows) names collected
  = scanSheets wb names collected.
Proof.
  intros Hnot. revert collected.
  induction names as [|s rest IH]; intros collected; [reflexivity|].
  cbn [scanSheets]. case_bool_decide as Hs; cbn [negb]; [|apply IH].
  assert (Hrows : sheet_to_json (withSheet wb sheet rows) s = sheet_to_json wb s).
  { unfold sheet_to_json, withSheet. cbn [Sheets].
    rewrite lookup_insert_ne; [reflexivity|]. intros ->. contradiction. }
  rewrite Hrows. destruct (_ <? _)%Z; [reflexivity|]. apply IH.
Qed.

(** A sheet outside the allow-list has no part in the scan. *)
Lemma scan_withSheet wb sheet rows :
  sheet ∉ ALLOWED_SHEETS ->
  scan (withSheet wb sheet rows) = scan wb /\
  handleExcelUpload (withSheet wb sheet rows) = handleExcelUpload wb.
Proof.
  intros Hnot.
  assert (H : scan (withSheet wb sheet rows) = scan wb).
  { unfold scan. cbn [SheetNames withSheet].
    rewrite scanSheets_withSheet by exact Hnot. reflexivity. }
  split; [exact H|]. unfold handleExcelUpload. rewrite H. reflexivity.
Qed.

(** C9: when the workbook lists a permitted sheet with more than 20000
    rows, the scan fails with the "sheet too large" error that names the
    row count of the first such sheet in sheet order, whatever the other
    sheets hold; when only one permitted sheet is over the ceiling, it is
    the count of that sheet. *)
Theorem oversize_sheet_fails (wb : WorkBook) (sheet : jsstring) :
  In sheet (SheetNames wb) ->
  sheet ∈ ALLOWED_SHEETS ->
  (MAX_ROWS_SAFE < Z.of_nat (length (sheet_to_json wb sheet)))%Z ->
  MAX_ROWS_SAFE = 20000%Z /\
  exists big,
    firstTooLarge wb = Some big /\
    In big (SheetNames wb) /\ big ∈ ALLOWED_SHEETS /\
    (MAX_ROWS_SAFE < Z.of_nat (length (sheet_to_json wb big)))%Z /\
    scan wb = Throws (SheetTooLarge (Z.of_nat (length (sheet_to_json wb big)))) /\
    handleExcelUpload wb
    = Throws (SheetTooLarge (Z.of_nat (length (sheet_to_json wb big)))) /\
    ((forall other, In other (SheetNames wb) -> other ∈ ALLOWED_SHEETS ->
        (MAX_ROWS_SAFE < Z.of_nat (length (sheet_to_json wb other)))%Z ->
        other = sheet) ->
     big = sheet).
Proof.
  intros Hin Hallowed Hbig. split; [reflexivity|].
  destruct (firstTooLarge wb) as [big|] eqn:Hfirst.
  - exists big. pose proof Hfirst as Hfind. unfold firstTooLarge in Hfind.
    apply List.find_some in Hfind as [Hin' Hp].
    apply andb_prop in Hp as [Ha Hb].
    apply bool_decide_eq_true in Ha. apply Z.ltb_lt in Hb.
    assert (Hscan : scan wb = Throws (SheetTooLarge
                      (Z.of_nat (length (sheet_to_json wb big)))))
      by (rewrite scan_outcome, Hfirst; reflexivity).
    repeat split; auto.
    unfold handleExcelUpload. destruct (SheetNames wb); [destruct Hin|].
    exact Hscan.
  - apply withinCeiling_firstTooLarge in Hfirst.
    specialize (Hfirst sheet Hin Hallowed). lia.
Qed.

End ScanFacts.

(** C4 (the code departs from the claim): a country cell that reads
    [constructor] is not a key of the country table, yet
    [COUNTRY_ISO_MAP[s]] finds the function that every object inherits
    under that name, and the row is pushed with that function as its
    country: the item returned has no country label, although its name,
    price and price group are validated. *)
Theorem scan_pushes_inherited_country :
  COUNTRY_ISO_MAP !! js "constructor" = None /\
  normalizeCountry (js "constructor") = Inherited (js "constructor") /\
  handleExcelUpload constructorBlock
  = Returns [ {| country := Inherited (js "constructor"); name := js "산토스";
                 price := numberOfZ 12000; priceGroup := js "(1)" |} ] /\
  ~ (exists label, Inherited (js "constructor") = Text label).
Proof.
  split; [vm_compute; reflexivity|].
  split; [vm_compute; reflexivity|].
  split; [vm_compute; reflexivity|].
  intros (label & H). discriminate H.
Qed.

(** C9, witness: a sheet ["(2)"] of 20001 rows next to a well-formed sheet
    ["(1)"]. *)
Lemma oversize_sheet_fails_witness :
  scan oneSheetTooLarge = Throws (SheetTooLarge 20001).
Proof.
  destruct (oversize_sheet_fails oneSheetTooLarge (js "(2)"))
    as (_ & big & _ & _ & _ & _ & Hscan & _ & Honly).
  - right. left. reflexivity.
  - apply (proj1 (bool_decide_eq_true (js "(2)" ∈ ALLOWED_SHEETS))).
    vm_compute. reflexivity.
  - vm_compute. reflexivity.
  - rewrite Hscan, Honly; [vm_compute; reflexivity|].
    intros other [<-|[<-|[]]] _ Hother; [|reflexivity].
    vm_compute in Hother. discriminate Hother.
Defined.

(** ** Short rows *)



Section ShortRows.
Context {engine : UnicodeNFC}.




End ShortRows.



(** ** The number model on known values *)

Example StringToNumber_samples :
  StringToNumber (js "0.1") = S754_finite false 7205759403792794 (-56) /\
  StringToNumber (js "5e-324") = S754_finite false 1 (-1074) /\
  StringToNumber (js "2e-324") = S754_zero false /\
  StringToNumber (js "1.7976931348623157e308")
    = S754_finite false 9007199254740991 971 /\
  StringToNumber (js "1.7976931348623159e308") = S754_infinity false /\
  StringToNumber (js "9007199254740993") = S754_finite false 4503599627370496 1 /\
  StringToNumber (js "0x1F") = numberOfZ 31 /\
  StringToNumber (js "1e") = NaN /\
  StringToNumber (js ".") = NaN /\
  StringToNumber (js "") = posZero /\
  StringToNumber (js "-Infinity") = S754_infinity true.
Proof. vm_compute. repeat split; reflexivity. Qed.

Example Number_toString_samples :
  Forall (fun s => Number_toString (StringToNumber (js s)) = js s)
    [ "0.1"; "12000"; "1e+21"; "123456789012345680000"; "5e-324"; "0.000001";
      "1e-7"; "1.7976931348623157e+308"; "123.456"; "0.30000000000000004";
      "-1.5"; "1000000000000000100"; "1e+23"; "NaN"; "-Infinity" ]%string.
Proof.
  repeat (apply List.Forall_cons; [vm_compute; reflexivity|]).
  apply List.Forall_nil.
Qed.

(** * Further properties of the program *)

(** ** Cleaned text *)

Lemma singleSpaced_no_pair b l1 x y l2 :
  singleSpaced b (l1 ++ x :: y :: l2) = true ->
  isWhiteSpace x = true -> isWhiteSpace y = false.
Proof.
  revert b. induction l1 as [|c r IH]; intros b H Hx.
  - cbn [app singleSpaced] in H. rewrite Hx in H.
    apply andb_prop in H as [_ H].
    destruct (isWhiteSpace y); [|reflexivity].
    cbn [negb andb] in H. discriminate H.
  - cbn [app singleSpaced] in H. destruct (isWhiteSpace c).
    + apply andb_prop in H as [_ H]. eapply IH; eassumption.
    + eapply IH; eassumption.
Qed.

(** X1: in the text that [sanitizeText] returns, white space only occurs
    as the single code unit U+0020, and never twice in a row. *)
Theorem sanitizeText_single_spaces {engine : UnicodeNFC} (x : JsValue) :
  (forall c, In c (sanitizeText x) -> isWhiteSpace c = true -> c = SPACE) /\
  (forall l1 a b l2,
     sanitizeText x = l1 ++ a :: b :: l2 ->
     isWhiteSpace a = true -> isWhiteSpace b = false).
Proof.
  split.
  - pose proof (sanitizeText_spaceIfWhite x) as H.
    rewrite List.Forall_forall in H. exact H.
  - intros l1 a b l2 E. apply (singleSpaced_no_pair false l1 a b l2).
    rewrite <- E. apply sanitizeText_singleSpaced.
Qed.

(** X1, witness: tabs, a line feed and a non-breaking space between two
    words leave one space. *)
Lemma sanitizeText_single_spaces_witness :
  sanitizeText (VString [0x61; 0x09; 0x0A; 0xA0; 0x62]) = [0x61] ++ 0x20 :: 0x62 :: [] /\
  isWhiteSpace 0x62 = false.
Proof.
  assert (E : sanitizeText (VString [0x61; 0x09; 0x0A; 0xA0; 0x62])
              = [0x61] ++ 0x20 :: 0x62 :: []) by (vm_compute; reflexivity).
  split; [exact E|].
  apply (proj2 (sanitizeText_single_spaces (VString [0x61; 0x09; 0x0A; 0xA0; 0x62]))
           [0x61] 0x20 0x62 [] E).
  reflexivity.
Defined.

(** ** Header detection *)

Lemma findIndexFrom_spec (p : JsValue -> bool) (row : Row) (i : Z) :
  (findIndexFrom p i row = (-1)%Z /\ existsb p row = false) \/
  (exists d, (d < length row)%nat /\
     findIndexFrom p i row = (i + Z.of_nat d)%Z /\
     p (nth d row VUndefined) = true /\
     forall d', (d' < d)%nat -> p (nth d' row VUndefined) = false).
Proof.
  revert i. induction row as [|c r IH]; intros i; [left; auto|].
  cbn [findIndexFrom existsb]. destruct (p c) eqn:Hc.
  - right. exists 0%nat. cbn. repeat split; [lia | lia | exact Hc | lia].
  - destruct (IH (i + 1)%Z) as [[H1 H2] | (d & Hd & H1 & H2 & H3)].
    + left. auto.
    + right. exists (S d). cbn [length nth]. repeat split; [lia | lia | exact H2 |].
      intros [|d'] Hlt; [exact Hc | apply H3; lia].
Qed.

Lemma cellAt_nth (row : Row) (d : nat) : cellAt row (Z.of_nat d) = nth d row VUndefined.
Proof.
  unfold cellAt. destruct (Z.of_nat d <? 0)%Z eqn:E; [apply Z.ltb_lt in E; lia|].
  rewrite Nat2Z.id. reflexivity.
Qed.

(** X2: a row is taken as a header exactly when it holds a name label and a
    price label; the detected columns then lie inside the row and are the
    leftmost cell with a name label and the leftmost cell with a price
    label. *)
Theorem detectHeader_leftmost (row : Row) :
  (detectHeader row = None <->
   existsb isNameLabel row = false \/ existsb isPriceLabel row = false) /\
  (forall nameIdx priceIdx,
     detectHeader row = Some (nameIdx, priceIdx) ->
     (0 <= nameIdx < Z.of_nat (length row))%Z /\
     (0 <= priceIdx < Z.of_nat (length row))%Z /\
     isNameLabel (cellAt row nameIdx) = true /\
     isPriceLabel (cellAt row priceIdx) = true /\
     (forall i, (0 <= i < nameIdx)%Z -> isNameLabel (cellAt row i) = false) /\
     (forall i, (0 <= i < priceIdx)%Z -> isPriceLabel (cellAt row i) = false)).
Proof.
  assert (Hcol : forall p idx,
            findIndex p row = idx -> idx <> (-1)%Z ->
            (0 <= idx < Z.of_nat (length row))%Z /\
            p (cellAt row idx) = true /\
            (forall i, (0 <= i < idx)%Z -> p (cellAt row i) = false)).
  { intros p idx Hidx Hne. unfold findIndex in Hidx.
    destruct (findIndexFrom_spec p row 0) as [[H _] | (d & Hd & H1 & H2 & H3)];
      [congruence|].
    rewrite H1, Z.add_0_l in Hidx. subst idx.
    split; [lia|]. split; [rewrite cellAt_nth; exact H2|].
    intros i Hi. replace i with (Z.of_nat (Z.to_nat i)) by lia.
    rewrite cellAt_nth. apply H3. lia. }
  assert (Hnone : forall p, existsb p row = false -> findIndex p row = (-1)%Z).
  { intros p Hp. unfold findIndex.
    destruct (findIndexFrom_spec p row 0) as [[H _] | (d & Hd & _ & H2 & _)];
      [exact H|].
    assert (existsb p row = true); [|congruence].
    apply existsb_exists. exists (nth d row VUndefined).
    split; [apply nth_In; exact Hd | exact H2]. }
  assert (Hsome : forall p, existsb p row = true -> findIndex p row <> (-1)%Z).
  { intros p Hp. unfold findIndex.
    destruct (findIndexFrom_spec p row 0) as [[_ H] | (d & Hd & H1 & _)];
      [congruence|]. rewrite H1. lia. }
  unfold detectHeader. split.
  - destruct (existsb isNameLabel row) eqn:Hn; [|split; auto].
    destruct (existsb isPriceLabel row) eqn:Hp.
    + pose proof (Hsome _ Hn) as H1. pose proof (Hsome _ Hp) as H2.
      apply Z.eqb_neq in H1, H2. rewrite H1, H2. cbn.
      split; [discriminate | intros [H | H]; discriminate H].
    + rewrite (Hnone _ Hp). rewrite orb_true_r. split; auto.
  - intros nameIdx priceIdx H.
    destruct (existsb isNameLabel row); [|discriminate].
    destruct (_ || _) eqn:E; [discriminate|]. injection H as Hn Hp.
    apply orb_false_elim in E as [E1 E2]. apply Z.eqb_neq in E1, E2.
    destruct (Hcol _ _ Hn) as (A1 & A2 & A3); [congruence|].
    destruct (Hcol _ _ Hp) as (B1 & B2 & B3); [congruence|].
    auto 10.
Qed.

(** X2, witness: the sample header has its name label in column C and its
    price label in column D. *)
Lemma detectHeader_leftmost_witness :
  detectHeader headerRow = Some (2, 3)%Z /\
  isNameLabel (cellAt headerRow 2) = true /\
  isPriceLabel (cellAt headerRow 3) = true.
Proof.
  assert (E : detectHeader headerRow = Some (2, 3)%Z) by (vm_compute; reflexivity).
  split; [exact E|].
  destruct (proj2 (detectHeader_leftmost headerRow) 2%Z 3%Z E)
    as (_ & _ & H1 & H2 & _).
  split; assumption.
Defined.

(** ** Prices written in digits *)

Lemma trimEnd_solid s :
  Forall (fun c => isWhiteSpace c = false) s -> trimEnd s = s.
Proof.
  induction 1 as [|c r Hc Hr IH]; [reflexivity|].
  cbn [trimEnd]. rewrite IH, Hc. destruct r; reflexivity.
Qed.

Lemma digit_unit d :
  d < 10 -> isDigit (0x30 + d) = true /\ isWhiteSpace (0x30 + d) = false.
Proof.
  intros H. split.
  - unfold isDigit. apply andb_true_intro. split; apply N.leb_le; lia.
  - unfold isWhiteSpace.
    repeat (apply orb_false_intro); try (apply N.eqb_neq; lia).
    apply andb_false_intro1. apply N.leb_gt. lia.
Qed.

Lemma takeDigits_digitText ds :
  Forall (fun d => d < 10) ds -> takeDigits (digitText ds) = (ds, []).
Proof.
  induction 1 as [|d r Hd Hr IH]; [reflexivity|].
  cbn [digitText map takeDigits]. fold (digitText r).
  rewrite (proj1 (digit_unit d Hd)), IH. f_equal. f_equal. lia.
Qed.

Lemma digitsValue_nonneg ds acc :
  (0 <= acc)%Z ->
  (0 <= fold_left (fun a d => (a * 10 + Z.of_N d)%Z) ds acc)%Z.
Proof.
  revert acc. induction ds as [|d r IH]; intros acc H; cbn; [exact H|].
  apply IH. lia.
Qed.

Lemma parseNonDecimal_digitText ds :
  Forall (fun d => d < 10) ds -> parseNonDecimal (digitText ds) = None.
Proof.
  intros H. destruct ds as [|d0 [|d1 [|d2 r]]];
    try (inversion H as [|? ? H0 _]; subst;
         assert (Hc : d0 = 0 \/ d0 = 1 \/ d0 = 2 \/ d0 = 3 \/ d0 = 4 \/ d0 = 5
                      \/ d0 = 6 \/ d0 = 7 \/ d0 = 8 \/ d0 = 9) by lia;
         destruct Hc as [->|[->|[->|[->|[->|[->|[->|[->|[->| ->]]]]]]]]];
         reflexivity);
    [reflexivity|].
  inversion H as [|? ? H0 H']; subst. inversion H' as [|? ? H1 _]; subst.
  assert (Hp : forall k, 0x39 < k -> (0x30 + d1 =? k) = false)
    by (intros k Hk; apply N.eqb_neq; lia).
  assert (Hc : d0 = 0 \/ d0 = 1 \/ d0 = 2 \/ d0 = 3 \/ d0 = 4 \/ d0 = 5
               \/ d0 = 6 \/ d0 = 7 \/ d0 = 8 \/ d0 = 9) by lia.
  destruct Hc as [->|[->|[->|[->|[->|[->|[->|[->|[->| ->]]]]]]]]];
    try reflexivity.
  cbn [digitText map parseNonDecimal]. change (0x30 + 0) with 0x30.
  cbv beta iota.
  rewrite !Hp by reflexivity. reflexivity.
Qed.

Lemma StringToNumber_digitText ds :
  ds <> [] -> Forall (fun d => d < 10) ds ->
  StringToNumber (digitText ds) = numberOfZ (digitsValue 10 ds).
Proof.
  intros Hne Hds.
  assert (Hsolid : Forall (fun c => isWhiteSpace c = false) (digitText ds)).
  { unfold digitText. rewrite List.Forall_map.
    eapply List.Forall_impl; [|exact Hds]. intros d Hd. apply digit_unit, Hd. }
  assert (Htrim : trim (digitText ds) = digitText ds).
  { unfold trim. rewrite trimStart_fixed.
    - apply trimEnd_solid, Hsolid.
    - intros c Hc. destruct Hsolid as [|c' r Hc' _]; [discriminate Hc|].
      injection Hc as <-. exact Hc'. }
  unfold StringToNumber. rewrite Htrim, (parseNonDecimal_digitText ds Hds).
  destruct ds as [|d r]; [congruence|].
  inversion Hds as [|? ? Hd Hr]; subst.
  change (digitText (d :: r)) with ((0x30 + d) :: digitText r).
  cbv beta iota.
  assert (E1 : (0x30 + d =? 0x2B) = false) by (apply N.eqb_neq; lia).
  assert (E2 : (0x30 + d =? 0x2D) = false) by (apply N.eqb_neq; lia).
  rewrite E1, E2.
  change ((0x30 + d) :: digitText r) with (digitText (d :: r)).
  unfold parseUnsignedDecimal.
  destruct (decide (digitText (d :: r) = js "Infinity")) as [E|_].
  { vm_compute (js "Infinity") in E. cbn [digitText map] in E.
    injection E as E _. lia. }
  rewrite (takeDigits_digitText (d :: r) Hds). cbv beta iota zeta.
  cbn [nonEmpty parseExponent]. rewrite app_nil_r. cbn [length].
  rewrite Z.sub_0_r.
  pose proof (digitsValue_nonneg (d :: r) 0%Z ltac:(lia)) as Hpos.
  fold (digitsValue 10 (d :: r)) in Hpos.
  unfold decimalToNumber, numberOfZ, binary_normalize.
  destruct (digitsValue 10 (d :: r)) as [|p|p]; [reflexivity| |lia].
  change (310 <? 0)%Z with false. cbv beta iota.
  assert (Hg : (Z.of_nat (S (length r)) + 0 <? -330)%Z = false)
    by (apply Z.ltb_ge; lia).
  rewrite Hg. change (0 <=? 0)%Z with true. cbv beta iota.
  change (Z.to_pos (10 ^ 0)) with 1%positive. rewrite Pos.mul_1_r. reflexivity.
Qed.

(** X3: when the price cell is a string that, once white space, commas,
    [원] and [₩] are taken out, is a non-empty run of decimal digits, the
    parsed price is the Number value of the integer the digits spell. *)
Theorem parsePrice_digits (s : jsstring) (ds : list N) :
  ds <> [] -> Forall (fun d => d < 10) ds ->
  removeEach isPriceNoise s = digitText ds ->
  parsePrice (VString s) = numberOfZ (digitsValue 10 ds).
Proof.
  intros Hne Hds Hs. unfold parsePrice. cbn [ToString]. rewrite Hs.
  apply StringToNumber_digitText; assumption.
Qed.

(** X3, witness: a price with a currency sign, a space and two commas. *)
Lemma parsePrice_digits_witness :
  parsePrice (VString (js "₩ 1,250,000원")) = numberOfZ 1250000.
Proof.
  apply (parsePrice_digits (js "₩ 1,250,000원") [1; 2; 5; 0; 0; 0; 0]).
  - discriminate.
  - repeat constructor.
  - vm_compute. reflexivity.
Defined.

(** ** Rows around the header *)

Section WalkFacts.
Context {engine : UnicodeNFC}.

Lemma walkRows_length sheet nameIdx priceIdx currentCountry below :
  (length (walkRows sheet nameIdx priceIdx currentCountry below)
   <= length below)%nat.
Proof.
  revert currentCountry. induction below as [|row rest IH]; intros cc; [cbn; lia|].
  rewrite walkRows_cons, length_app. specialize (IH (nextCountry cc row)).
  destruct (snd (dataRow _ _ _ cc row)); cbn [length]; lia.
Qed.

(** X4: the rows above the first header row of a sheet push nothing, and a
    sheet without any header row pushes nothing; each walk pushes at most
    one item for each row below its header. *)
Theorem scanRows_preamble sheet (preamble rows : list Row) :
  Forall (fun r => detectHeader r = None) preamble ->
  scanRows sheet (preamble ++ rows) = scanRows sheet rows /\
  scanRows sheet preamble = [] /\
  (forall header nameIdx priceIdx,
     detectHeader header = Some (nameIdx, priceIdx) ->
     Forall (fun r => detectHeader r = None) rows ->
     scanRows sheet (preamble ++ header :: rows)
     = walkRows sheet nameIdx priceIdx (Text []) rows /\
     (length (scanRows sheet (preamble ++ header :: rows)) <= length rows)%nat).
Proof.
  intros Hpre.
  assert (Hskip : forall rest, scanRows sheet (preamble ++ rest) = scanRows sheet rest).
  { intros rest. induction Hpre as [|r pre Hr Hp IH]; [reflexivity|].
    cbn [app scanRows]. rewrite Hr. exact IH. }
  split; [apply Hskip|]. split.
  - rewrite <- (app_nil_r preamble). apply Hskip.
  - intros header nameIdx priceIdx Hh Hrows.
    assert (E : scanRows sheet (preamble ++ header :: rows)
                = walkRows sheet nameIdx priceIdx (Text []) rows).
    { rewrite Hskip. cbn [scanRows]. rewrite Hh.
      assert (Hnil : scanRows sheet rows = []).
      { clear -Hrows. induction Hrows as [|r rs Hr _ IH]; [reflexivity|].
        cbn [scanRows]. rewrite Hr. exact IH. }
      rewrite Hnil. apply app_nil_r. }
    split; [exact E|]. rewrite E. apply walkRows_length.
Qed.

Lemma countryAfter_source currentCountry (rows : list Row) :
  (countryAfter currentCountry rows = currentCountry /\
   Forall (fun r => countryCell r = Text []) rows) \/
  (exists d row,
     rows !! d = Some row /\
     truthyCountry (countryCell row) = true /\
     countryCell row = countryAfter currentCountry rows /\
     forall d' row', (d < d')%nat -> rows !! d' = Some row' ->
                     countryCell row' = Text []).
Proof.
  revert currentCountry. induction rows as [|r rest IH]; intros cc.
  - left. split; [reflexivity | constructor].
  - unfold countryAfter. cbn [fold_left]. fold (countryAfter (nextCountry cc r) rest).
    destruct (IH (nextCountry cc r)) as [[Hsame Hsilent] | (d & row & Hd & Hne & Hc & Hafter)].
    + rewrite Hsame. unfold nextCountry.
      destruct (truthyCountry (countryCell r)) eqn:E.
      * right. exists 0%nat, r. repeat split; auto.
        intros [|d'] row' Hlt Hrow; [lia|]. cbn in Hrow.
        rewrite List.Forall_forall in Hsilent. apply Hsilent.
        apply list_elem_of_In, list_elem_of_lookup. eauto.
      * left. split; [reflexivity|]. constructor; [|exact Hsilent].
        destruct (countryCell r) as [[|c s]|property];
          [reflexivity | discriminate E | discriminate E].
    + right. exists (S d), row. repeat split; auto.
      intros [|d'] row' Hlt Hrow; [lia|]. cbn in Hrow.
      apply (Hafter d'); [lia | exact Hrow].
Qed.

(** X5: the country of every item the scan collects comes from a country
    cell: there is a row below the header of its walk, at or above its own
    row, whose cell in column B is a string that normalizes to that
    country, and no row between that row and the item's row has a country
    cell that normalizes to a non-empty text. *)
Theorem pushed_country_source (wb : WorkBook) (p : Push) :
  p ∈ pushes wb ->
  exists sheet r row t,
    SheetNames wb !! atSheet p = Some sheet /\
    (atHeader p < r <= atRow p)%nat /\
    sheet_to_json wb sheet !! r = Some row /\
    cellAt row countryIdx = VString t /\
    normalizeCountry t = country (pushed p) /\
    forall r' row', (r < r' <= atRow p)%nat ->
      sheet_to_json wb sheet !! r' = Some row' -> countryCell row' = Text [].
Proof.
  intros Hp. apply elem_of_pushes in Hp
    as (sheet & header & nameIdx & priceIdx & item
        & Hk & _ & _ & _ & Hlt & Hj & Hs).
  apply dataRow_pushed in Hs as (Hc & Hne & _).
  set (rows := sheet_to_json wb sheet) in *.
  assert (Hwalk : country (pushed p) = walkCountry rows (atHeader p) (atRow p)).
  { rewrite Hc. unfold walkCountry.
    replace (atRow p - atHeader p)%nat with (S (atRow p - 1 - atHeader p)) by lia.
    rewrite (take_S_r _ _ item).
    - unfold countryAfter. rewrite fold_left_app. reflexivity.
    - rewrite lookup_drop. rewrite <- Hj. f_equal. lia. }
  unfold walkCountry in Hwalk.
  destruct (countryAfter_source (Text []) (take (atRow p - atHeader p) (drop (S (atHeader p)) rows)))
    as [[Hsame _] | (d & row & Hd & Hrow & Hcell & Hafter)].
  { rewrite Hsame in Hwalk. rewrite Hwalk in Hne. discriminate Hne. }
  pose proof (lookup_lt_Some _ _ _ Hd) as Hdlt. rewrite length_take in Hdlt.
  rewrite lookup_take_lt in Hd by lia. rewrite lookup_drop in Hd.
  unfold countryCell in Hcell, Hrow.
  destruct (cellAt row countryIdx) as [| | | |t] eqn:Ht; try discriminate Hrow.
  exists sheet, (S (atHeader p) + d)%nat, row, t.
  repeat split; auto; try lia; [congruence|].
  intros r' row' Hr' Hrow'.
  apply (Hafter (r' - S (atHeader p))%nat); [lia|].
  rewrite lookup_take_lt by lia. rewrite lookup_drop. rewrite <- Hrow'. f_equal. lia.
Qed.

End WalkFacts.

(** X4, witness: a title row above the sample header and its Brazilian
    row. *)
Lemma scanRows_preamble_witness :
  scanRows (js "(1)") ([[txt "2025 단가표"]] ++ [headerRow; santos])
  = scanRows (js "(1)") [headerRow; santos].
Proof.
  assert (H : Forall (fun r => detectHeader r = None) [[txt "2025 단가표"]])
    by (repeat constructor).
  exact (proj1 (scanRows_preamble (js "(1)") [[txt "2025 단가표"]]
                  [headerRow; santos] H)).
Defined.

(** X5, witness: the last item of the sample sheet takes its country from
    the row that names Brazil, two rows above. *)
Lemma pushed_country_source_witness :
  exists sheet r row t,
    SheetNames brazilBlock !! 0%nat = Some sheet /\
    (0 < r <= 3)%nat /\
    sheet_to_json brazilBlock sheet !! r = Some row /\
    cellAt row countryIdx = VString t /\
    normalizeCountry t = Text (js "BR") /\
    forall r' row', (r < r' <= 3)%nat ->
      sheet_to_json brazilBlock sheet !! r' = Some row' ->
      countryCell row' = Text [].
Proof.
  apply (pushed_country_source brazilBlock
           (mkPush 0 0 3 (priceItem "BR" "모지아나" 14000 "(1)"))).
  apply list_elem_of_In. vm_compute. auto.
Defined.

(** ** The upload gate *)

(** X6: the test [/\.xlsx?$/] of the gate holds exactly for the names that
    end in [.xls] or in [.xlsx], in lower case. *)
Theorem testXlsExtension_suffix (fileName : jsstring) :
  testXlsExtension fileName = true <->
  exists base, fileName = base ++ js ".xls" \/ fileName = base ++ js ".xlsx".
Proof.
  assert (Hhere : forall s, xlsEndsHere s = true <-> s = js ".xls" \/ s = js ".xlsx").
  { intros s. vm_compute (js ".xls"). vm_compute (js ".xlsx"). split.
    - destruct s as [|c0 [|c1 [|c2 [|c3 rest]]]]; try discriminate.
      cbn [xlsEndsHere]. intros H.
      apply andb_prop in H as [H Hrest]. apply andb_prop in H as [H H3].
      apply andb_prop in H as [H H2]. apply andb_prop in H as [H0 H1].
      apply N.eqb_eq in H0, H1, H2, H3. subst.
      destruct rest as [|c4 [|c5 rest]]; [left; reflexivity| |discriminate].
      apply N.eqb_eq in Hrest. subst. right. reflexivity.
    - intros [-> | ->]; reflexivity. }
  split.
  - induction fileName as [|c r IH]; [discriminate|].
    cbn [testXlsExtension]. intros H. apply orb_prop in H as [H | H].
    + exists []. apply Hhere in H. exact H.
    + destruct (IH H) as [base [-> | ->]]; exists (c :: base); auto.
  - intros [base H].
    assert (Hend : xlsEndsHere (skipn (length base) fileName) = true).
    { apply Hhere. destruct H as [-> | ->]; rewrite drop_app_length; auto. }
    clear H. revert fileName Hend.
    induction base as [|c b IH]; intros fileName Hend.
    + rewrite drop_0 in Hend.
      destruct fileName; cbn [testXlsExtension]; rewrite Hend; reflexivity.
    + destruct fileName as [|c' r]; [discriminate Hend|].
      cbn [testXlsExtension]. cbn [length] in Hend. rewrite skipn_cons in Hend.
      rewrite (IH r Hend).
      apply orb_true_r.
Qed.

(** X6, witness: a name in Korean with the extension [.xlsx]. *)
Lemma testXlsExtension_suffix_witness :
  testXlsExtension (js "단가표_202503" ++ js ".xlsx") = true.
Proof.
  apply (proj2 (testXlsExtension_suffix (js "단가표_202503" ++ js ".xlsx"))).
  exists (js "단가표_202503"). right. reflexivity.
Defined.

(** X7: an upload stores items exactly when the file passes the gate (a
    listed MIME type or an Excel extension, and at most 10 MiB), the bytes
    decode into a workbook with at least one sheet and no permitted sheet
    over the row ceiling, and some row is accepted; what is stored is then
    the non-empty list of the items of the valid rows, with the label made
    from the file name.  Every stored item has a cleaned, non-empty name, a
    finite price above zero, a permitted price group, and a truthy country:
    a non-empty string, or the built-in object of an inherited property
    name. *)
Theorem uploadFile_loaded {engine : UnicodeNFC} (f : File)
    (decoded : option WorkBook) (itemsAll : list PriceItem) (label : jsstring) :
  (uploadFile (Some f) decoded = Loaded itemsAll label <->
   (includes allowedTypes (file_type f) = true \/
    testXlsExtension (file_name f) = true) /\
   (file_size f <= 10485760)%Z /\
   exists wb,
     decoded = Some wb /\ SheetNames wb <> [] /\ withinCeiling wb /\
     pushes wb <> [] /\ itemsAll = map pushed (pushes wb) /\
     label = fileDateLabel (file_name f)) /\
  (uploadFile (Some f) decoded = Loaded itemsAll label ->
   itemsAll <> [] /\ Forall validItem itemsAll /\
   exists wb,
     decoded = Some wb /\
     forall it, In it itemsAll <-> exists p, validPush wb p /\ pushed p = it).
Proof.
  assert (Hiff : uploadFile (Some f) decoded = Loaded itemsAll label <->
   (includes allowedTypes (file_type f) = true \/
    testXlsExtension (file_name f) = true) /\
   (file_size f <= 10485760)%Z /\
   exists wb,
     decoded = Some wb /\ SheetNames wb <> [] /\ withinCeiling wb /\
     pushes wb <> [] /\ itemsAll = map pushed (pushes wb) /\
     label = fileDateLabel (file_name f)).
  { unfold uploadFile, handleExcelUpload, MAX_FILE_BYTES.
    change (10 * 1024 * 1024)%Z with 10485760%Z.
    destruct (includes allowedTypes (file_type f)) eqn:Ht;
      destruct (testXlsExtension (file_name f)) eqn:Hx; cbn [negb andb];
      try (split; [discriminate | intros [[H|H] _]; discriminate H]).
    all: destruct (10485760 <? file_size f)%Z eqn:Hsz;
      [apply Z.ltb_lt in Hsz; split; [discriminate | intros (_ & H & _); lia]|].
    all: apply Z.ltb_ge in Hsz.
    all: destruct decoded as [wb|];
      [|split; [discriminate | intros (_ & _ & wb & H & _); discriminate H]].
    all: rewrite scan_outcome.
    all: destruct (SheetNames wb) eqn:Hnames; cbn [length Nat.eqb];
      [split; [discriminate
              | intros (_ & _ & wb' & [= <-] & H & _); rewrite Hnames in H;
                congruence]|].
    all: destruct (firstTooLarge wb) eqn:Hf;
      [split; [discriminate
              | intros (_ & _ & wb' & [= <-] & _ & H & _);
                apply withinCeiling_firstTooLarge in H; congruence]|].
    all: apply withinCeiling_firstTooLarge in Hf.
    all: destruct (pushes wb) eqn:Hp;
      [split; [discriminate
              | intros (_ & _ & wb' & [= <-] & _ & _ & H & _); congruence]|].
    all: split;
      [ intros [= <- <-]; split; [auto|]; split; [exact Hsz|];
        exists wb; rewrite Hnames, Hp; repeat split; auto; discriminate
      | intros (_ & _ & wb' & [= <-] & _ & _ & _ & -> & ->); rewrite Hp;
        reflexivity ]. }
  split; [exact Hiff|].
  intros H. apply Hiff in H as (_ & _ & wb & -> & _ & _ & Hne & -> & _).
  split; [|split].
  - destruct (pushes wb); [congruence | discriminate].
  - apply Forall_forall. intros it Hit.
    apply list_elem_of_fmap in Hit as (p & -> & Hp).
    apply elem_of_pushes, accepted_valid in Hp. tauto.
  - exists wb. split; [reflexivity|]. intros it.
    rewrite List.in_map_iff. split; intros (p & H1 & H2).
    + exists p. split; [|exact H1].
      apply accepted_validPush, elem_of_pushes, list_elem_of_In, H2.
    + exists p. split; [exact H2|].
      apply list_elem_of_In, elem_of_pushes, accepted_validPush, H1.
Qed.

(** X7, witness: the sample sheet, uploaded under a dated name with the
    generic binary type. *)
Lemma uploadFile_loaded_witness :
  map pushed (pushes brazilBlock) <> [] /\
  Forall validItem (map pushed (pushes brazilBlock)).
Proof.
  assert (Hload : uploadFile
                    (Some (mkFile (js "단가표_202503.xlsx")
                             (js "application/octet-stream") 4096))
                    (Some brazilBlock)
                  = Loaded (map pushed (pushes brazilBlock))
                      (js "2025년 03월 단가표"))
    by (vm_compute; reflexivity).
  destruct (proj2 (uploadFile_loaded
                     (mkFile (js "단가표_202503.xlsx")
                        (js "application/octet-stream") 4096)
                     (Some brazilBlock) (map pushed (pushes brazilBlock))
                     (js "2025년 03월 단가표")) Hload) as (H1 & H2 & _).
  split; [exact H1 | exact H2].
Defined.

(** ** The file label *)

Lemma matchYearMonth_skip (pre s : jsstring) :
  (forall k, (k < length pre)%nat -> yearMonthHere (skipn k (pre ++ s)) = None) ->
  matchYearMonth (pre ++ s) = matchYearMonth s.
Proof.
  induction pre as [|c r IH]; intros H; [reflexivity|].
  pose proof (H 0%nat ltac:(cbn; lia)) as H0. rewrite drop_0 in H0.
  change (matchYearMonth ((c :: r) ++ s))
    with (match yearMonthHere ((c :: r) ++ s) with
          | Some groups => Some groups
          | None => matchYearMonth (r ++ s)
          end).
  rewrite H0. apply IH. intros k Hk.
  pose proof (H (S k) ltac:(cbn; lia)) as Hk'.
  rewrite <- app_comm_cons, skipn_cons in Hk'. exact Hk'.
Qed.

(** X8: the label is built from the leftmost place of the file name where
    [20] is followed by four digits: the first four characters there are
    the year and the next two the month, whatever they are; a name without
    such a place is used as it is. *)
Theorem fileDateLabel_leftmost :
  (forall pre y3 y4 m1 m2 post,
     isDigit y3 && isDigit y4 && isDigit m1 && isDigit m2 = true ->
     (forall k, (k < length pre)%nat ->
        yearMonthHere (skipn k (pre ++ [0x32; 0x30; y3; y4; m1; m2] ++ post))
        = None) ->
     fileDateLabel (pre ++ [0x32; 0x30; y3; y4; m1; m2] ++ post)
     = [0x32; 0x30; y3; y4] ++ js "년 " ++ [m1; m2] ++ js "월 단가표") /\
  (forall fileName,
     (forall k, yearMonthHere (skipn k fileName) = None) ->
     fileDateLabel fileName = fileName).
Proof.
  split.
  - intros pre y3 y4 m1 m2 post Hd Hpre. unfold fileDateLabel.
    rewrite (matchYearMonth_skip pre _ Hpre).
    cbn [app matchYearMonth yearMonthHere].
    change ((0x32 =? 0x32) && (0x30 =? 0x30)) with true. cbn [andb].
    rewrite Hd. reflexivity.
  - intros fileName H. unfold fileDateLabel.
    rewrite <- (app_nil_r fileName) at 1.
    rewrite matchYearMonth_skip; [reflexivity|].
    intros k _. rewrite app_nil_r. apply H.
Qed.

(** X8, witness: a name with a date after a prefix that holds no date. *)
Lemma fileDateLabel_leftmost_witness :
  fileDateLabel (js "BlessBean_" ++ [0x32; 0x30; 0x32; 0x35; 0x31; 0x33] ++ js ".xlsx")
  = [0x32; 0x30; 0x32; 0x35] ++ js "년 " ++ [0x31; 0x33] ++ js "월 단가표".
Proof.
  apply (proj1 fileDateLabel_leftmost (js "BlessBean_") 0x32 0x35 0x31 0x33 (js ".xlsx")).
  - reflexivity.
  - intros k Hk. vm_compute in Hk.
    do 10 (destruct k as [|k]; [vm_compute; reflexivity|]). lia.
Defined.

(** ** Memoized collections *)

Lemma unseen_app a b (y : Country) :
  unseen (a ++ b) y = unseen a y && unseen b y.
Proof.
  unfold unseen. rewrite <- negb_orb. f_equal.
  destruct (bool_decide (y ∈ a)) eqn:Ea, (bool_decide (y ∈ b)) eqn:Eb;
    cbn [orb];
    try apply bool_decide_eq_true in Ea; try apply bool_decide_eq_true in Eb;
    try apply bool_decide_eq_false in Ea; try apply bool_decide_eq_false in Eb;
    try (apply bool_decide_eq_true_2; apply elem_of_app; auto).
  apply bool_decide_eq_false_2. rewrite elem_of_app. tauto.
Qed.

Lemma unseen_singleton x y : unseen [x] y = true <-> y <> x.
Proof.
  unfold unseen. rewrite negb_true_iff, bool_decide_eq_false, list_elem_of_singleton.
  reflexivity.
Qed.

Lemma filter_unseen_twice seen x (l : list Country) :
  List.filter (unseen (seen ++ [x])) l
  = List.filter (unseen seen) (List.filter (unseen [x]) l).
Proof.
  induction l as [|y r IH]; [reflexivity|].
  cbn [List.filter]. rewrite unseen_app.
  destruct (unseen [x] y) eqn:E1, (unseen seen y) eqn:E2;
    cbn [andb List.filter]; rewrite ?E2; congruence.
Qed.

Lemma filter_unseen_absorb seen x (l : list Country) :
  x ∈ seen ->
  List.filter (unseen seen) (List.filter (unseen [x]) l)
  = List.filter (unseen seen) l.
Proof.
  intros Hx. induction l as [|y r IH]; [reflexivity|].
  cbn [List.filter].
  destruct (unseen [x] y) eqn:E1.
  - cbn [List.filter]. destruct (unseen seen y); congruence.
  - assert (y = x) as ->.
    { destruct (decide (y = x)) as [E | E]; [exact E|].
      apply unseen_singleton in E. congruence. }
    assert (E2 : unseen seen x = false).
    { unfold unseen. rewrite bool_decide_eq_true_2 by exact Hx. reflexivity. }
    rewrite E2. exact IH.
Qed.

Lemma fillSet_spec (seen l : list Country) :
  fillSet seen l = seen ++ List.filter (unseen seen) (ArrayFromSet l).
Proof.
  revert seen. induction l as [|x r IH]; intros seen.
  - cbn. rewrite app_nil_r. reflexivity.
  - change (ArrayFromSet (x :: r)) with (fillSet [x] r).
    change (fillSet seen (x :: r))
      with (fillSet (if bool_decide (x ∈ seen) then seen else seen ++ [x]) r).
    rewrite (IH [x]). cbn [app List.filter]. unfold unseen at 1.
    destruct (bool_decide (x ∈ seen)) eqn:Ex; cbn [negb].
    + apply bool_decide_eq_true in Ex.
      rewrite IH, filter_unseen_absorb by exact Ex. reflexivity.
    + rewrite IH, filter_unseen_twice, <- app_assoc. reflexivity.
Qed.

Lemma ArrayFromSet_cons x (l : list Country) :
  ArrayFromSet (x :: l) = x :: List.filter (unseen [x]) (ArrayFromSet l).
Proof. change (ArrayFromSet (x :: l)) with (fillSet [x] l). apply fillSet_spec. Qed.

Lemma ArrayFromSet_In (l : list Country) y : In y (ArrayFromSet l) <-> In y l.
Proof.
  induction l as [|x r IH]; [reflexivity|].
  rewrite ArrayFromSet_cons. cbn [In]. rewrite List.filter_In, IH, unseen_singleton.
  split.
  - intros [H | [H _]]; auto.
  - intros [H | H]; [auto|].
    destruct (decide (y = x)) as [-> | Hne]; auto.
Qed.

Lemma ArrayFromSet_NoDup (l : list Country) : List.NoDup (ArrayFromSet l).
Proof.
  induction l as [|x r IH]; [constructor|].
  rewrite ArrayFromSet_cons. constructor.
  - rewrite List.filter_In, unseen_singleton. intros [_ H]. congruence.
  - apply List.NoDup_filter, IH.
Qed.

(** X9: the country buttons of a price group are the countries of the
    items of that group, each listed once, in the order in which they first
    occur in the item list. *)
Theorem countries_distinct (itemsAll : list PriceItem) (group : jsstring) :
  List.NoDup (countries itemsAll group) /\
  (forall c, In c (countries itemsAll group) <->
             exists i, In i itemsAll /\ priceGroup i = group /\ country i = c) /\
  (forall i, priceGroup i = group ->
     countries (i :: itemsAll) group
     = country i :: List.filter (unseen [country i]) (countries itemsAll group)) /\
  (forall i, priceGroup i <> group ->
     countries (i :: itemsAll) group = countries itemsAll group).
Proof.
  unfold countries. split; [apply ArrayFromSet_NoDup|]. split; [|split].
  - intros c. rewrite ArrayFromSet_In, List.in_map_iff. split.
    + intros (i & Hc & Hi). apply List.filter_In in Hi as [Hi Hg].
      apply bool_decide_eq_true in Hg. eauto.
    + intros (i & Hi & Hg & Hc). exists i. split; [exact Hc|].
      apply List.filter_In. split; [exact Hi|].
      apply bool_decide_eq_true. exact Hg.
  - intros i Hg. cbn [List.filter].
    rewrite bool_decide_eq_true_2 by exact Hg. cbn [map].
    apply ArrayFromSet_cons.
  - intros i Hg. cbn [List.filter].
    rewrite bool_decide_eq_false_2 by exact Hg. reflexivity.
Qed.

(** X9, witness: two groups and a repeated country. *)
Lemma countries_distinct_witness :
  countries [ priceItem "KE" "AA" 21000 "(1)"; priceItem "BR" "산토스" 12000 "(1)";
              priceItem "KE" "AB" 19000 "(1)" ] (js "(1)")
  = Text (js "KE") :: List.filter (unseen [Text (js "KE")])
                 (countries [ priceItem "BR" "산토스" 12000 "(1)";
                              priceItem "KE" "AB" 19000 "(1)" ] (js "(1)")).
Proof.
  apply (countries_distinct
           [ priceItem "BR" "산토스" 12000 "(1)"; priceItem "KE" "AB" 19000 "(1)" ]
           (js "(1)")).
  reflexivity.
Defined.

Lemma items_of_group (itemsAll : list PriceItem) (c : Country)
    (group : jsstring) :
  items itemsAll (Some c) group
  = List.filter (fun i => bool_decide (country i = c))
      (List.filter (fun i => bool_decide (priceGroup i = group)) itemsAll).
Proof.
  unfold items. induction itemsAll as [|i r IH]; [reflexivity|].
  cbn [List.filter].
  assert (E : bool_decide (Some (country i) = Some c) = bool_decide (country i = c)).
  { apply bool_decide_ext. split; [intros [= H]; exact H | intros ->; reflexivity]. }
  rewrite E.
  destruct (bool_decide (priceGroup i = group)), (bool_decide (country i = c)) eqn:Ec;
    cbn [andb List.filter]; rewrite ?Ec, IH; reflexivity.
Qed.

Lemma concat_map_pick (f : Country -> list PriceItem) (cs : list Country) c :
  List.NoDup cs ->
  Permutation (concat (map f cs))
    ((if bool_decide (c ∈ cs) then f c else [])
     ++ concat (map f (List.filter (unseen [c]) cs))).
Proof.
  induction 1 as [|u us Hu Hus IH]; [reflexivity|].
  cbn [map concat List.filter]. destruct (unseen [c] u) eqn:E.
  - apply unseen_singleton in E.
    assert (Hsame : bool_decide (c ∈ u :: us) = bool_decide (c ∈ us)).
    { apply bool_decide_ext. rewrite elem_of_cons. split; [|auto].
      intros [H | H]; [congruence | exact H]. }
    rewrite Hsame. cbn [map concat].
    rewrite IH at 1. rewrite !app_assoc. apply Permutation_app_tail.
    apply Permutation_app_comm.
  - assert (u = c) as ->.
    { destruct (decide (u = c)) as [H | H]; [exact H|].
      apply unseen_singleton in H. congruence. }
    rewrite bool_decide_eq_true_2 by apply list_elem_of_here.
    assert (Hfix : List.filter (unseen [c]) us = us).
    { clear -Hu. induction us as [|v vs IH]; [reflexivity|].
      cbn [List.filter].
      assert (E : unseen [c] v = true).
      { apply unseen_singleton. intros ->. apply Hu. left. reflexivity. }
      rewrite E, IH; [reflexivity|]. intros H. apply Hu. right. exact H. }
    rewrite Hfix. reflexivity.
Qed.

Lemma group_by_country (l : list PriceItem) :
  Permutation
    (concat (map (fun c => List.filter (fun i => bool_decide (country i = c)) l)
                 (ArrayFromSet (map country l))))
    l.
Proof.
  induction l as [|x r IH]; [reflexivity|].
  set (f := fun c => List.filter (fun i => bool_decide (country i = c)) r) in *.
  cbn [map]. rewrite ArrayFromSet_cons. cbn [map concat].
  assert (Hhead : List.filter (fun i => bool_decide (country i = country x)) (x :: r)
                  = x :: f (country x)).
  { cbn [List.filter]. rewrite bool_decide_eq_true_2 by reflexivity. reflexivity. }
  assert (Hother :
    map (fun c => List.filter (fun i => bool_decide (country i = c)) (x :: r))
        (List.filter (unseen [country x]) (ArrayFromSet (map country r)))
    = map f (List.filter (unseen [country x]) (ArrayFromSet (map country r)))).
  { apply map_ext_in. intros c Hc. apply List.filter_In in Hc as [_ Hc].
    apply unseen_singleton in Hc. cbn [List.filter].
    rewrite bool_decide_eq_false_2 by congruence. reflexivity. }
  rewrite Hhead, Hother. cbn [app]. apply perm_skip.
  rewrite <- IH at 2.
  rewrite (concat_map_pick f _ (country x) (ArrayFromSet_NoDup _)).
  apply Permutation_app_tail.
  case_bool_decide as Hin; [reflexivity|].
  assert (Hnil : f (country x) = []); [|rewrite Hnil; reflexivity].
  unfold f. destruct (List.filter _ r) as [|i rest] eqn:E; [reflexivity|].
  assert (Hi : In i (List.filter (fun i => bool_decide (country i = country x)) r))
    by (rewrite E; left; reflexivity).
  apply List.filter_In in Hi as [Hi Hc]. apply bool_decide_eq_true in Hc.
  elim Hin. apply list_elem_of_In, ArrayFromSet_In, List.in_map_iff. eauto.
Qed.

(** X10: the product lists behind the country buttons divide the items of
    the price group: taken over the countries of the group, in button
    order, they hold every item of the group exactly once; every country
    button has at least one product; and without a selected country no
    product is listed. *)
Theorem items_partition (itemsAll : list PriceItem) (group : jsstring) :
  Permutation
    (concat (map (fun c => items itemsAll (Some c) group)
                 (countries itemsAll group)))
    (List.filter (fun i => bool_decide (priceGroup i = group)) itemsAll) /\
  (forall c, In c (countries itemsAll group) <->
             items itemsAll (Some c) group <> []) /\
  items itemsAll None group = [] /\
  (forall selected i,
     In i (items itemsAll selected group) <->
     In i itemsAll /\ selected = Some (country i) /\ priceGroup i = group).
Proof.
  assert (Hin : forall selected i,
     In i (items itemsAll selected group) <->
     In i itemsAll /\ selected = Some (country i) /\ priceGroup i = group).
  { intros selected i. unfold items. rewrite List.filter_In, andb_true_iff.
    rewrite !bool_decide_eq_true. intuition congruence. }
  split; [|split; [|split; [|exact Hin]]].
  - unfold countries.
    rewrite (map_ext _ _ (fun c => items_of_group itemsAll c group)).
    apply group_by_country.
  - intros c. rewrite (proj1 (proj2 (countries_distinct itemsAll group))). split.
    + intros (i & Hi & Hg & Hc) Hnil.
      assert (H : In i (items itemsAll (Some c) group))
        by (apply Hin; subst c; auto).
      rewrite Hnil in H. destruct H.
    + intros Hne. destruct (items itemsAll (Some c) group) as [|i rest] eqn:E;
        [congruence|].
      assert (H : In i (items itemsAll (Some c) group))
        by (rewrite E; left; reflexivity).
      apply Hin in H as (Hi & [= Hc] & Hg). eauto.
  - destruct (items itemsAll None group) as [|i rest] eqn:E; [reflexivity|].
    assert (H : In i (items itemsAll None group)) by (rewrite E; left; reflexivity).
    apply Hin in H as (_ & H & _). discriminate H.
Qed.

(** X10, witness: Kenya is a country of group (1) of the sample list, so
    its product list is not empty. *)
Lemma items_partition_witness :
  items [ priceItem "KE" "AA" 21000 "(1)"; priceItem "BR" "산토스" 12000 "(2)" ]
        (Some (Text (js "KE"))) (js "(1)") <> [].
Proof.
  destruct (items_partition
              [ priceItem "KE" "AA" 21000 "(1)"; priceItem "BR" "산토스" 12000 "(2)" ]
              (js "(1)")) as (_ & H & _).
  apply (proj1 (H (Text (js "KE")))). vm_compute. auto.
Defined.

(** ** The cart *)

Lemma isEntry_key n c x : Cart.isEntry n c x = true <-> Cart.key x = (n, c).
Proof.
  unfold Cart.isEntry, Cart.key. rewrite andb_true_iff, !bool_decide_eq_true.
  split; [intros [-> ->]; reflexivity | intros [= -> ->]; auto].
Qed.

Lemma find_isEntry_None n c prev :
  List.find (Cart.isEntry n c) prev = None <-> ~ In (n, c) (map Cart.key prev).
Proof.
  split.
  - intros H Hin. apply List.in_map_iff in Hin as (x & Hk & Hx).
    pose proof (List.find_none _ _ H x Hx) as Hf.
    apply isEntry_key in Hk. congruence.
  - intros H. destruct (List.find _ prev) as [x|] eqn:E; [|reflexivity].
    apply List.find_some in E as [Hx Hk]. apply isEntry_key in Hk.
    elim H. apply List.in_map_iff. eauto.
Qed.

Lemma updateQty_keys n c v prev :
  map Cart.key (Cart.updateQty n c v prev) = map Cart.key prev.
Proof.
  unfold Cart.updateQty. rewrite map_map. apply map_ext. intros x.
  destruct (Cart.isEntry n c x); reflexivity.
Qed.

Lemma NoDup_map_filter (p : Cart.CartItem -> bool) (l : list Cart.CartItem) :
  List.NoDup (map Cart.key l) -> List.NoDup (map Cart.key (List.filter p l)).
Proof.
  induction l as [|x r IH]; [auto|]. cbn [map List.filter]. intros H.
  apply List.NoDup_cons_iff in H as [Hx Hr].
  destruct (p x); [|auto]. cbn [map]. constructor; [|auto].
  intros Hin. apply Hx. apply List.in_map_iff in Hin as (y & Hy & Hin).
  apply List.filter_In in Hin as [Hin _]. apply List.in_map_iff. eauto.
Qed.

(** X11: no two entries of the cart have the same name and country: the
    three cart operations keep this, starting from the empty cart. *)
Theorem cart_keys_unique n p c v (prev : list Cart.CartItem) :
  List.NoDup (map Cart.key prev) ->
  List.NoDup (map Cart.key (Cart.addToCart n p c prev)) /\
  List.NoDup (map Cart.key (Cart.updateQty n c v prev)) /\
  List.NoDup (map Cart.key (Cart.removeFromCart n c prev)).
Proof.
  intros H. split; [|split].
  - unfold Cart.addToCart. destruct (List.find _ prev) eqn:E; [exact H|].
    apply find_isEntry_None in E. rewrite map_app. cbn [map].
    apply List.NoDup_app; [exact H | repeat constructor; intros [] |].
    unfold Cart.key at 2. cbn. intros k Hk [<- | []]. auto.
  - rewrite updateQty_keys. exact H.
  - apply NoDup_map_filter, H.
Qed.

(** X11, witness: an empty cart, then one product. *)
Lemma cart_keys_unique_witness :
  List.NoDup (map Cart.key (Cart.addToCart (js "산토스") (numberOfZ 12000) (Text (js "BR")) [])).
Proof.
  apply (cart_keys_unique (js "산토스") (numberOfZ 12000) (Text (js "BR")) posZero []).
  constructor.
Defined.

(** X12: adding a product that is in the cart under the same name and
    country changes nothing, so the cart keeps the price and the quantity
    of the first addition; adding one that is not there appends it with
    quantity zero; adding twice is adding once. *)
Theorem addToCart_once n p p' c (prev : list Cart.CartItem) :
  (In (n, c) (map Cart.key prev) -> Cart.addToCart n p c prev = prev) /\
  (~ In (n, c) (map Cart.key prev) ->
   Cart.addToCart n p c prev
   = prev ++ [ Cart.mkCartItem n c p posZero ]) /\
  Cart.addToCart n p' c (Cart.addToCart n p c prev) = Cart.addToCart n p c prev.
Proof.
  assert (Hin : In (n, c) (map Cart.key prev) -> Cart.addToCart n p c prev = prev).
  { intros H. unfold Cart.addToCart.
    destruct (List.find _ prev) eqn:E; [reflexivity|].
    apply find_isEntry_None in E. contradiction. }
  assert (Hout : ~ In (n, c) (map Cart.key prev) ->
                 Cart.addToCart n p c prev
                 = prev ++ [ Cart.mkCartItem n c p posZero ]).
  { intros H. unfold Cart.addToCart. apply find_isEntry_None in H.
    rewrite H. reflexivity. }
  split; [exact Hin|]. split; [exact Hout|].
  assert (Hthere : In (n, c) (map Cart.key (Cart.addToCart n p c prev))).
  { destruct (List.find (Cart.isEntry n c) prev) as [x|] eqn:E.
    - apply List.find_some in E as [Hx Hk]. apply isEntry_key in Hk.
      assert (H : In (n, c) (map Cart.key prev))
        by (apply List.in_map_iff; eauto).
      rewrite (Hin H). exact H.
    - apply find_isEntry_None in E.
      rewrite (Hout E), map_app. apply List.in_or_app. right. left. reflexivity. }
  unfold Cart.addToCart at 1.
  destruct (List.find _ (Cart.addToCart n p c prev)) eqn:E; [reflexivity|].
  apply find_isEntry_None in E. contradiction.
Qed.

(** X12, witness: the same product offered at another price. *)
Lemma addToCart_once_witness :
  Cart.addToCart (js "산토스") (numberOfZ 13000) (Text (js "BR"))
    [ Cart.mkCartItem (js "산토스") (Text (js "BR")) (numberOfZ 12000) (numberOfZ 5) ]
  = [ Cart.mkCartItem (js "산토스") (Text (js "BR")) (numberOfZ 12000) (numberOfZ 5) ].
Proof.
  apply (addToCart_once (js "산토스") (numberOfZ 13000) (numberOfZ 13000) (Text (js "BR"))).
  left. reflexivity.
Defined.

(** X13: removing a product leaves no entry with its name and country and
    keeps every other entry, in order; removing what was just added gives
    back the cart as it was without that product. *)
Theorem removeFromCart_gone n p c (prev : list Cart.CartItem) :
  ~ In (n, c) (map Cart.key (Cart.removeFromCart n c prev)) /\
  (forall x, In x (Cart.removeFromCart n c prev) <->
             In x prev /\ Cart.key x <> (n, c)) /\
  Cart.removeFromCart n c (Cart.addToCart n p c prev)
  = Cart.removeFromCart n c prev /\
  (~ In (n, c) (map Cart.key prev) ->
   Cart.removeFromCart n c (Cart.addToCart n p c prev) = prev).
Proof.
  assert (Hmem : forall x, In x (Cart.removeFromCart n c prev) <->
                           In x prev /\ Cart.key x <> (n, c)).
  { intros x. unfold Cart.removeFromCart.
    rewrite List.filter_In, negb_true_iff, <- not_true_iff_false, isEntry_key.
    reflexivity. }
  assert (Hadd : Cart.removeFromCart n c (Cart.addToCart n p c prev)
                 = Cart.removeFromCart n c prev).
  { unfold Cart.addToCart. destruct (List.find _ prev); [reflexivity|].
    unfold Cart.removeFromCart. rewrite List.filter_app. cbn [List.filter].
    assert (E : Cart.isEntry n c (Cart.mkCartItem n c p posZero) = true)
      by (apply isEntry_key; reflexivity).
    rewrite E. cbn [negb]. apply app_nil_r. }
  split; [|split; [exact Hmem|split; [exact Hadd|]]].
  - intros H. apply List.in_map_iff in H as (x & Hk & Hx).
    apply Hmem in Hx as [_ Hx]. contradiction.
  - intros Hout. rewrite Hadd. unfold Cart.removeFromCart. clear Hmem Hadd.
    induction prev as [|x r IH]; [reflexivity|].
    cbn [List.filter map] in *.
    assert (E : Cart.isEntry n c x = false).
    { apply not_true_iff_false. rewrite isEntry_key. intros H. apply Hout.
      left. exact H. }
    rewrite E. cbn [negb]. f_equal. apply IH. intros H. apply Hout.
    right. exact H.
Qed.

(** X13, witness: a product added to a cart that does not hold it, and
    removed again. *)
Lemma removeFromCart_gone_witness :
  Cart.removeFromCart (js "AA") (Text (js "KE"))
    (Cart.addToCart (js "AA") (numberOfZ 21000) (Text (js "KE"))
       [ Cart.mkCartItem (js "산토스") (Text (js "BR")) (numberOfZ 12000) (numberOfZ 5) ])
  = [ Cart.mkCartItem (js "산토스") (Text (js "BR")) (numberOfZ 12000) (numberOfZ 5) ].
Proof.
  apply (removeFromCart_gone (js "AA") (numberOfZ 21000) (Text (js "KE"))).
  vm_compute. intros [H | []]. discriminate H.
Defined.

Lemma Math_max_zero_not_negative a : ltZero (Math_max a posZero) = false.
Proof.
  unfold Math_max, ltZero, SFltb.
  destruct (SFcompare a posZero) as [[| |]|] eqn:E; try reflexivity.
  - destruct a as [[|]| | |]; try reflexivity; rewrite E; reflexivity.
  - rewrite E. reflexivity.
Qed.

(** X14: changing a quantity touches only the entry with that name and
    country, keeps the entries, their order, names, countries and prices,
    and never leaves a quantity below zero, whatever amount is added; so
    no operation of the cart makes a quantity negative. *)
Theorem updateQty_not_negative n p c v (prev : list Cart.CartItem) :
  map Cart.key (Cart.updateQty n c v prev) = map Cart.key prev /\
  map Cart.price (Cart.updateQty n c v prev) = map Cart.price prev /\
  (forall k x, Cart.updateQty n c v prev !! k = Some x ->
     exists old, prev !! k = Some old /\
       (Cart.key old <> (n, c) -> x = old) /\
       (Cart.key old = (n, c) ->
        Cart.quantity x = Math_max (numberAdd (Cart.quantity old) v) posZero /\
        ltZero (Cart.quantity x) = false)) /\
  (Forall (fun x => ltZero (Cart.quantity x) = false) prev ->
   Forall (fun x => ltZero (Cart.quantity x) = false) (Cart.updateQty n c v prev) /\
   Forall (fun x => ltZero (Cart.quantity x) = false) (Cart.addToCart n p c prev) /\
   Forall (fun x => ltZero (Cart.quantity x) = false) (Cart.removeFromCart n c prev)).
Proof.
  split; [apply updateQty_keys|]. split; [|split].
  - unfold Cart.updateQty. rewrite map_map. apply map_ext. intros x.
    destruct (Cart.isEntry n c x); reflexivity.
  - intros k x Hk. unfold Cart.updateQty in Hk.
    rewrite list_lookup_fmap in Hk.
    destruct (prev !! k) as [old|]; [|discriminate Hk].
    cbn in Hk. injection Hk as <-. exists old. split; [reflexivity|].
    destruct (Cart.isEntry n c old) eqn:E.
    + apply isEntry_key in E. split; [contradiction|]. intros _.
      cbn [Cart.quantity]. split; [reflexivity|].
      apply Math_max_zero_not_negative.
    + split; [reflexivity|]. intros H. apply isEntry_key in H. congruence.
  - intros H. split; [|split].
    + unfold Cart.updateQty. rewrite List.Forall_map.
      eapply List.Forall_impl; [|exact H]. intros x Hx. cbv beta.
      destruct (Cart.isEntry n c x); [|exact Hx].
      cbn [Cart.quantity]. apply Math_max_zero_not_negative.
    + unfold Cart.addToCart. destruct (List.find _ prev); [exact H|].
      apply List.Forall_app. split; [exact H|]. repeat constructor.
    + unfold Cart.removeFromCart. rewrite List.Forall_forall in *.
      intros x Hx. apply List.filter_In in Hx as [Hx _]. auto.
Qed.

(** X14, witness: taking 20 from a quantity of 5 leaves zero. *)
Lemma updateQty_not_negative_witness :
  Forall (fun x => ltZero (Cart.quantity x) = false)
    (Cart.updateQty (js "산토스") (Text (js "BR")) (numberOfZ (-20))
       [ Cart.mkCartItem (js "산토스") (Text (js "BR")) (numberOfZ 12000) (numberOfZ 5) ]) /\
  Cart.updateQty (js "산토스") (Text (js "BR")) (numberOfZ (-20))
    [ Cart.mkCartItem (js "산토스") (Text (js "BR")) (numberOfZ 12000) (numberOfZ 5) ]
  = [ Cart.mkCartItem (js "산토스") (Text (js "BR")) (numberOfZ 12000) posZero ].
Proof.
  split; [|vm_compute; reflexivity].
  apply (updateQty_not_negative (js "산토스") posZero (Text (js "BR")) (numberOfZ (-20))).
  repeat constructor.
Defined.

Lemma numberAdd_opposite q :
  Number_isFinite q = true -> numberAdd q (numberNeg q) = posZero.
Proof.
  destruct q as [[|]| | |s m e]; try discriminate; intros _; try reflexivity.
  unfold numberAdd, numberNeg, SFopp, SFadd.
  rewrite Z.min_id. unfold shl_align. rewrite Z.sub_diag. cbn [fst].
  assert (E : (cond_Zopp s (Z.pos m) + cond_Zopp (negb s) (Z.pos m) = 0)%Z)
    by (destruct s; cbn; lia).
  rewrite E. reflexivity.
Qed.

(** X15: the [0kg] button, which adds the negated quantity of an entry,
    sets a finite quantity to zero. *)
Theorem updateQty_reset (prev : list Cart.CartItem) (k : nat) (x : Cart.CartItem) :
  prev !! k = Some x ->
  Number_isFinite (Cart.quantity x) = true ->
  Cart.updateQty (Cart.name x) (Cart.country x) (numberNeg (Cart.quantity x)) prev
    !! k
  = Some (Cart.mkCartItem (Cart.name x) (Cart.country x) (Cart.price x) posZero).
Proof.
  intros Hk Hfin. unfold Cart.updateQty. rewrite list_lookup_fmap, Hk. cbn.
  assert (E : Cart.isEntry (Cart.name x) (Cart.country x) x = true)
    by (apply isEntry_key; reflexivity).
  rewrite E, (numberAdd_opposite _ Hfin). reflexivity.
Qed.

(** X15, witness: an entry of 25 kg. *)
Lemma updateQty_reset_witness :
  Cart.updateQty (js "산토스") (Text (js "BR")) (numberNeg (numberOfZ 25))
    [ Cart.mkCartItem (js "산토스") (Text (js "BR")) (numberOfZ 12000) (numberOfZ 25) ]
    !! 0%nat
  = Some (Cart.mkCartItem (js "산토스") (Text (js "BR")) (numberOfZ 12000) posZero).
Proof.
  apply (updateQty_reset
           [ Cart.mkCartItem (js "산토스") (Text (js "BR")) (numberOfZ 12000) (numberOfZ 25) ]
           0 (Cart.mkCartItem (js "산토스") (Text (js "BR")) (numberOfZ 12000) (numberOfZ 25))).
  - reflexivity.
  - reflexivity.
Defined.

(** ** From the upload to the buttons *)

(** X16: after a successful upload, a price group shows country buttons
    exactly when it is the name of a sheet of the workbook for which some
    row was accepted; it is then one of the four permitted names. *)
Theorem countries_of_loaded {engine : UnicodeNFC} (wb : WorkBook)
    (itemsAll : list PriceItem) (group : jsstring) :
  handleExcelUpload wb = Returns itemsAll ->
  (countries itemsAll group <> [] <->
   exists p, p ∈ pushes wb /\ SheetNames wb !! atSheet p = Some group) /\
  (countries itemsAll group <> [] -> group ∈ ALLOWED_SHEETS).
Proof.
  intros Hload. unfold handleExcelUpload in Hload.
  destruct (length (SheetNames wb) =? 0)%nat; [discriminate|].
  rewrite scan_outcome in Hload.
  destruct (firstTooLarge wb); [discriminate|].
  assert (Hitems : itemsAll = map pushed (pushes wb)).
  { destruct (pushes wb); [discriminate|]. congruence. }
  clear Hload.
  assert (Hiff : countries itemsAll group <> [] <->
                 exists p, p ∈ pushes wb /\ priceGroup (pushed p) = group).
  { split.
    - intros Hne. destruct (countries itemsAll group) as [|c cs] eqn:E; [congruence|].
      assert (Hc : In c (countries itemsAll group)) by (rewrite E; left; reflexivity).
      unfold countries in Hc. apply ArrayFromSet_In, List.in_map_iff in Hc
        as (i & _ & Hi).
      apply List.filter_In in Hi as [Hi Hg]. apply bool_decide_eq_true in Hg.
      subst itemsAll. apply List.in_map_iff in Hi as (p & <- & Hp).
      exists p. split; [apply list_elem_of_In, Hp | exact Hg].
    - intros (p & Hp & Hg) Hnil.
      assert (Hc : In (country (pushed p)) (countries itemsAll group)).
      { unfold countries. apply ArrayFromSet_In, List.in_map.
        apply List.filter_In. split.
        - subst itemsAll. apply List.in_map, list_elem_of_In, Hp.
        - apply bool_decide_eq_true, Hg. }
      rewrite Hnil in Hc. destruct Hc. }
  split.
  - rewrite Hiff. split; intros (p & Hp & Hg); exists p; (split; [exact Hp|]);
      pose proof (proj2 (accepted_valid wb p (proj1 (elem_of_pushes wb p) Hp))) as Hk;
      congruence.
  - intros Hne. apply Hiff in Hne as (p & Hp & <-).
    apply elem_of_pushes, accepted_valid in Hp. apply Hp.
Qed.

(** X16, witness: the sample sheet gives group (1) its country button. *)
Lemma countries_of_loaded_witness :
  countries (map pushed (pushes brazilBlock)) (js "(1)") <> [] /\
  js "(1)" ∈ ALLOWED_SHEETS.
Proof.
  assert (Hne : countries (map pushed (pushes brazilBlock)) (js "(1)") <> [])
    by (vm_compute; discriminate).
  assert (Hload : handleExcelUpload brazilBlock
                  = Returns (map pushed (pushes brazilBlock)))
    by (vm_compute; reflexivity).
  split; [exact Hne|].
  destruct (countries_of_loaded brazilBlock _ (js "(1)") Hload) as [_ H].
  exact (H Hne).
Defined.

(** ** Codes of the country table *)

Lemma COUNTRY_TABLE_codes_fixed (engine : UnicodeNFC) :
  keepsPlainText engine ->
  Forall (fun kv : jsstring * jsstring =>
            normalizeCountry (snd kv) = Text (snd kv))
         COUNTRY_TABLE.
Proof.
  intros Hkeep.
  assert (Hentry : forall raw code,
            plainHangulText raw = true ->
            @normalizeCountry hangulEngine raw = code ->
            normalizeCountry raw = code).
  { intros raw code Hplain <-.
    assert (Hs : @sanitizeText engine (VString raw)
                 = @sanitizeText hangulEngine (VString raw)).
    { unfold sanitizeText.
      change (ToString (orElse (VString raw) (VString []))) with raw.
      rewrite (Hkeep raw Hplain), (hangulEngine_keepsPlainText raw Hplain).
      reflexivity. }
    unfold normalizeCountry. rewrite Hs. reflexivity. }
  repeat (apply List.Forall_cons; [apply Hentry; vm_compute; reflexivity|]).
  apply List.Forall_nil.
Qed.

(** X17: every code of the country table is left as it is by
    [normalizeCountry], so normalizing the code that a country name of the
    table was normalized to changes nothing. *)
Theorem normalizeCountry_code_fixed (engine : UnicodeNFC)
    (koreanName isoCode : jsstring) :
  keepsPlainText engine ->
  COUNTRY_ISO_MAP !! koreanName = Some isoCode ->
  normalizeCountry isoCode = Text isoCode /\
  normalizeCountry koreanName = Text isoCode /\
  normalizeCountry isoCode = normalizeCountry koreanName.
Proof.
  intros Hkeep Hk. unfold COUNTRY_ISO_MAP in Hk.
  apply elem_of_list_to_map_2 in Hk. apply list_elem_of_In in Hk.
  pose proof (COUNTRY_TABLE_codes_fixed engine Hkeep) as Hcodes.
  pose proof (COUNTRY_TABLE_normalized engine Hkeep) as Hnames.
  rewrite List.Forall_forall in Hcodes, Hnames.
  pose proof (Hcodes _ Hk) as Hc. destruct (Hnames _ Hk) as [Hn _].
  cbn [fst snd] in Hc, Hn. split; [exact Hc|]. split; [exact Hn|].
  rewrite Hn. exact Hc.
Qed.

(** X17, witness: the bracketed tag of the decaffeinated origin. *)
Lemma normalizeCountry_code_fixed_witness :
  normalizeCountry (js "[디카페인]") = Text (js "[디카페인]").
Proof.
  apply (normalizeCountry_code_fixed hangulEngine (js "디카페인") (js "[디카페인]")).
  - exact hangulEngine_keepsPlainText.
  - vm_compute. reflexivity.
Defined.

(** ** The two toasts of the gate *)

(** X18: a chosen file is turned away for its type exactly when its MIME
    type is none of the three listed and its name does not pass the
    extension test, and for its size exactly when it passes that check
    and is larger than 10485760 bytes; neither depends on what the bytes
    decode to, and a file that is turned away is never scanned. *)
Theorem uploadFile_gate {engine : UnicodeNFC} (f : File) (decoded : option WorkBook) :
  (uploadFile (Some f) decoded = InvalidFileType <->
   includes allowedTypes (file_type f) = false /\
   testXlsExtension (file_name f) = false) /\
  (uploadFile (Some f) decoded = FileTooLarge <->
   (includes allowedTypes (file_type f) = true \/
    testXlsExtension (file_name f) = true) /\
   (10485760 < file_size f)%Z) /\
  (forall decoded',
     uploadFile (Some f) decoded = InvalidFileType \/
     uploadFile (Some f) decoded = FileTooLarge ->
     uploadFile (Some f) decoded' = uploadFile (Some f) decoded).
Proof.
  unfold uploadFile, MAX_FILE_BYTES. change (10 * 1024 * 1024)%Z with 10485760%Z.
  destruct (includes allowedTypes (file_type f));
    destruct (testXlsExtension (file_name f)); cbn [negb andb].
  4: { split; [tauto|]. split; [|reflexivity].
       split; [discriminate | intros [[H|H] _]; discriminate H]. }
  all: destruct (10485760 <? file_size f)%Z eqn:Hsz;
    [ apply Z.ltb_lt in Hsz | apply Z.ltb_ge in Hsz ].
  all: repeat split; try discriminate; try tauto; try lia.
  all: try (intros [_ H]; lia).
  all: try (intros [H _]; discriminate H).
  all: try (intros decoded' [H | H]; try discriminate H; try reflexivity).
  all: try (destruct decoded as [wb|]; [destruct (handleExcelUpload wb)|];
            discriminate).
  all: try (intros decoded' [H | H];
            destruct decoded as [wb|]; [destruct (handleExcelUpload wb)|];
            discriminate H).
Qed.

(** X18, witness: a PDF offered with an empty type. *)
Lemma uploadFile_gate_witness :
  uploadFile (Some (mkFile (js "notes.pdf") (js "") 1024)) (Some brazilBlock)
  = InvalidFileType.
Proof.
  destruct (uploadFile_gate (mkFile (js "notes.pdf") (js "") 1024)
              (Some brazilBlock)) as [H _].
  apply (proj2 H). split; vm_compute; reflexivity.
Defined.

(** ** Sheets outside the allow-list *)

Lemma pushesFrom_withSheet {engine : UnicodeNFC} wb sheet rows k names :
  sheet ∉ ALLOWED_SHEETS ->
  pushesFrom (withSheet wb sheet rows) k names = pushesFrom wb k names.
Proof.
  intros Hnot. revert k.
  induction names as [|s rest IH]; intros k; [reflexivity|].
  cbn [pushesFrom]. rewrite IH. case_bool_decide as Hs; [|reflexivity].
  assert (Hrows : sheet_to_json (withSheet wb sheet rows) s = sheet_to_json wb s).
  { unfold sheet_to_json, withSheet. cbn [Sheets].
    rewrite lookup_insert_ne; [reflexivity|]. intros ->. contradiction. }
  rewrite Hrows. reflexivity.
Qed.

(** X19: a sheet whose name is not one of the four permitted names has no
    part in the upload: whatever rows it holds, the outcome and the rows
    pushed are the same, and no item comes from it. *)
Theorem stray_sheet_ignored {engine : UnicodeNFC} (wb : WorkBook)
    (sheet : jsstring) (rows : list Row) :
  sheet ∉ ALLOWED_SHEETS ->
  handleExcelUpload (withSheet wb sheet rows) = handleExcelUpload wb /\
  pushes (withSheet wb sheet rows) = pushes wb /\
  (forall p, p ∈ pushes wb -> SheetNames wb !! atSheet p <> Some sheet) /\
  (forall items it, handleExcelUpload wb = Returns items -> In it items ->
     priceGroup it <> sheet).
Proof.
  intros Hnot.
  assert (Hfrom : forall p, p ∈ pushes wb ->
            SheetNames wb !! atSheet p <> Some sheet /\
            priceGroup (pushed p) <> sheet).
  { intros p Hp. apply elem_of_pushes, accepted_valid in Hp as [Hv Hk].
    destruct Hv as (_ & _ & _ & _ & _ & Hg).
    split; [rewrite Hk|]; congruence. }
  split; [apply scan_withSheet, Hnot|].
  split; [exact (pushesFrom_withSheet wb sheet rows 0 (SheetNames wb) Hnot)|].
  split; [intros p Hp; apply Hfrom, Hp|].
  intros items it Hload Hit. unfold handleExcelUpload in Hload.
  destruct (length (SheetNames wb) =? 0)%nat; [discriminate|].
  rewrite scan_outcome in Hload.
  destruct (firstTooLarge wb); [discriminate|].
  assert (Hitems : items = map pushed (pushes wb)).
  { destruct (pushes wb); [discriminate|]. congruence. }
  subst items. apply List.in_map_iff in Hit as (p & <- & Hp).
  apply Hfrom, list_elem_of_In, Hp.
Qed.

(** X19, witness: the sample workbook with a stray sheet of valid rows. *)
Lemma stray_sheet_ignored_witness :
  handleExcelUpload (withSheet brazilBlock (js "Sheet1") [headerRow; santos])
  = handleExcelUpload brazilBlock.
Proof.
  refine (proj1 (stray_sheet_ignored brazilBlock (js "Sheet1")
                   [headerRow; santos] _)).
  intros H.
  assert (Hb : bool_decide (js "Sheet1" ∈ ALLOWED_SHEETS) = true)
    by (apply bool_decide_eq_true_2; exact H).
  vm_compute in Hb. discriminate Hb.
Defined.

(** ** Country cells that name an inherited property *)

Lemma Object_prototype_inherited (engine : UnicodeNFC) :
  keepsPlainText engine ->
  Forall (fun property : jsstring =>
            normalizeCountry property = Inherited property /\
            normalizeCountry (letterSpaced property) = Inherited property)
         Object_prototype.
Proof.
  intros Hkeep.
  assert (Hentry : forall raw found,
            plainHangulText raw = true ->
            @normalizeCountry hangulEngine raw = found ->
            normalizeCountry raw = found).
  { intros raw found Hplain <-.
    assert (Hs : @sanitizeText engine (VString raw)
                 = @sanitizeText hangulEngine (VString raw)).
    { unfold sanitizeText.
      change (ToString (orElse (VString raw) (VString []))) with raw.
      rewrite (Hkeep raw Hplain), (hangulEngine_keepsPlainText raw Hplain).
      reflexivity. }
    unfold normalizeCountry. rewrite Hs. reflexivity. }
  repeat (apply List.Forall_cons;
          [split; apply Hentry; vm_compute; reflexivity|]).
  apply List.Forall_nil.
Qed.

(** X20: the lookup in the country table also finds what every object
    inherits: for each of the twelve property names of [Object.prototype],
    written plainly or letter-spaced, [normalizeCountry] returns the
    built-in object of that name and not a string; and it returns an
    object only for these names. *)
Theorem normalizeCountry_inherited (engine : UnicodeNFC) (property : jsstring) :
  keepsPlainText engine ->
  property ∈ Object_prototype ->
  normalizeCountry property = Inherited property /\
  normalizeCountry (letterSpaced property) = Inherited property /\
  truthyCountry (normalizeCountry property) = true /\
  (forall raw found, normalizeCountry raw = Inherited found ->
     found ∈ Object_prototype /\
     COUNTRY_ISO_MAP !! found = None /\
     (found = sanitizeText (VString raw) \/
      found = rejoined (sanitizeText (VString raw)))).
Proof.
  intros Hkeep Hin.
  pose proof (Object_prototype_inherited engine Hkeep) as Hall.
  rewrite List.Forall_forall in Hall.
  destruct (Hall property (proj1 (list_elem_of_In _ _) Hin)) as [H1 H2].
  split; [exact H1|]. split; [exact H2|].
  split; [rewrite H1; reflexivity|].
  intros raw found. unfold normalizeCountry, getCountry, rejoined. cbv zeta.
  set (s := sanitizeText (VString raw)).
  set (tokens := List.filter nonEmpty (splitWhiteSpace s)).
  destruct ((1 <? length tokens)%nat
            && forallb (fun t => (length t =? 1)%nat) tokens).
  - destruct (COUNTRY_ISO_MAP !! concat tokens) as [code|] eqn:Hown.
    + destruct (truthyCountry (Text code)); discriminate.
    + case_bool_decide as Hp; [|discriminate].
      cbn [truthyCountry]. intros [= <-]. auto.
  - destruct (COUNTRY_ISO_MAP !! s) as [code|] eqn:Hown.
    + destruct (truthyCountry (Text code)); discriminate.
    + case_bool_decide as Hp; [|discriminate].
      cbn [truthyCountry]. intros [= <-]. auto.
Qed.

(** X20, witness: a letter-spaced [toString]. *)
Lemma normalizeCountry_inherited_witness :
  normalizeCountry (js "t o S t r i n g") = Inherited (js "toString").
Proof.
  destruct (normalizeCountry_inherited hangulEngine (js "toString"))
    as (_ & H & _).
  - exact hangulEngine_keepsPlainText.
  - apply list_elem_of_In. vm_compute. tauto.
  - exact H.
Defined.
